(** * max-osc-python: an OSC service node

    A shallow embedding of [max-osc-python.py] (class [OscServer]) and of the
    message dispatch engine its specification describes, with the properties
    the specification states about them.

    The Python methods are embedded as state-passing functions over a record
    holding the attributes of the [OscServer] object.  A method body runs in
    a small monad [Py] that threads the object, accumulates the outward
    effects (console lines, messages handed to the client protocol, calls on
    the reactor) and may end in a Python exception; as in Python, attribute
    writes and effects that happened before an exception are kept.

    The third-party parts (the txosc codec and receiver, the Twisted reactor
    loop) are not part of the repository; they are modelled from the
    specification and every such definition says so. *)

From Stdlib Require Import ZArith List String Ascii Strings.Byte Bool Lia.
From Stdlib Require Import Floats.SpecFloat.
From stdpp Require Import gmap strings list fin_maps.

Open Scope Z_scope.

(** ** Values, messages, endpoints *)

(** A Python value as txosc carries it in a message argument.  A Python
    [float] is an IEEE-754 binary64 number, written as a [spec_float]. *)
Inductive value : Type :=
| VInt (z : Z)
| VFloat (f : spec_float)
| VString (s : string)
| VBlob (b : list byte).

(** [txosc.osc.Message(address, *args)]: an address and its arguments. *)
Record Message : Type := mkMessage {
  address : string;
  arguments : list value
}.

(** [Message.getValues()]: the Python values of the arguments, in order. *)
Definition getValues (m : Message) : list value := arguments m.

(** The second argument of a callback (named [address] in the source, [peer]
    here, where [address] is the message's field) is the pair [(host, port)]
    of the sending UDP peer; its component 0 is [host]. *)
Record Endpoint : Type := mkEndpoint {
  host : string;
  port : Z
}.

(** ** Numbers: binary64, binary32 and the numpy buffer *)

(** The Python float with integer value [z]. *)
Definition float_of_Z (z : Z) : spec_float := binary_normalize 53 1024 z 0 false.

(** Storing a Python float in an array of [dtype=np.float32]: rounding to
    binary32 (nearest, ties to even; overflow gives an infinity). *)
Definition np_float32 (x : spec_float) : spec_float :=
  match x with
  | S754_finite s m e => binary_round 24 128 s m e
  | _ => x
  end.

(** [float(value)] on a [np.float32]: the same number as a binary64, which
    is exact. *)
Definition py_float (x : spec_float) : spec_float :=
  match x with
  | S754_finite s m e => binary_round 53 1024 s m e
  | _ => x
  end.

(** A mantissa and exponent in place in the format of [prec] bits with
    largest exponent [emax]: a full mantissa of [prec] bits, or a shorter one
    at the least exponent. *)
Definition in_place (prec emax m e : Z) : Prop :=
  (2 ^ (prec - 1) <= m < 2 ^ prec /\ SpecFloat.emin prec emax <= e)
  \/ (0 <= m < 2 ^ (prec - 1) /\ e = SpecFloat.emin prec emax).

(** A two-dimensional [float32] array, row after row. *)
Definition ndarray : Type := list (list spec_float).

(** [np.ndarray((rows, cols), dtype=np.float32)] allocates without
    initialising: the cells hold whatever [mem] the allocator returns. *)
Definition np_ndarray (rows cols : nat) (mem : nat -> nat -> spec_float) : ndarray :=
  map (fun r => map (mem r) (seq 0%nat cols)) (seq 0%nat rows).

(** [trajectory.flat]: the cells in row-major order. *)
Definition flat (t : ndarray) : list spec_float := concat t.

(** ** The object and what its methods can do *)

(** The objects of Twisted and txosc that the server only holds and calls:
    the reactor passed to [listen], and the protocol object it sends
    through. *)
Inductive reactor : Type := TwistedReactor.
Inductive client_protocol : Type := DatagramClientProtocol.

(** The bound methods that [listen] hands to the receiver, and the fallback
    that a receiver has of its own until line 101 replaces it. *)
Inductive callback : Type :=
| cb_reset | cb_quit | cb_ping | cb_xfreq | cb_yfreq | cb_nextframe | cb_fallback
| cb_default_fallback.

(** Modelled from the spec: [txosc.dispatch.Receiver] is not in the
    repository.  It is the handler table of the Address Dispatcher: at most
    one registration per exact address pattern, plus one fallback entry. *)
Record Receiver : Type := mkReceiver {
  callbacks : gmap string callback;
  fallback : option callback
}.

(** The attributes of an [OscServer] object.  The attributes [listen]
    creates are [None] until it has run; [_server_protocol], [_server_port]
    and [_client_port] are written by [listen] and read by no handler, and
    are left out. *)
Record OscServer : Type := mkOscServer {
  verbose : bool;
  recv_portnum : Z;
  send_portnum : Z;
  _reactor : option reactor;
  _ping_count : Z;
  _xfreq : value;
  _yfreq : value;
  _xphase : value;
  _yphase : value;
  receiver : option Receiver;
  _client_protocol : option client_protocol
}.

(** The exceptions that end a method: indexing an empty list, using an
    attribute that is not there (or is [None]), a port that cannot be bound,
    an argument that does not fit its 32-bit field on the wire, and whatever
    reading the sensor raises. *)
Inductive exn : Type :=
| IndexError
| AttributeError
| CannotListenError
| OverflowError
| SensorError (why : string).

(** What [print] writes.  The formatted text is kept as its parts.  The last
    three lines are not the server's: the line of the receiver's own
    fallback, and the runtime's lines for a dropped datagram and for a
    handler that raised. *)
Inductive console_line : Type :=
| Line_text (s : string)
| Line_listening (p : Z)
| Line_ready
| Line_unhandled (addr : string) (from : Endpoint) (values : list value)
| Line_xfreq_now (v : value)
| Line_yfreq_now (v : value)
| Line_unmatched (addr : string) (values : list value)
| Line_malformed
| Line_handler_failed (e : exn).

(** What a method does to the outside: a console line, a message handed to
    [_client_protocol.send] with its destination (the call; whether a
    datagram leaves is [sendable]), a request to listen on a UDP port, the
    call [_reactor.stop()]. *)
Inductive effect : Type :=
| Print (l : console_line)
| Send (m : Message) (dest : Endpoint)
| ListenUDP (p : Z)
| ReactorStop.

(** What the method finds outside the object while it runs: the outcome of
    reading the sensor, the content of freshly allocated array memory, and
    whether a UDP port can be bound.

    Reading the sensor is lines 154-160 (the HTTP request, the JSON body and
    the first sample of the three channels [accX], [accY], [accZ]) together
    with the conversion of the samples to numbers that lines 162-163 ask
    for.  The outcome is the three samples as numbers (Python floats), or the
    exception of whichever step fails: the request, the JSON decoding, the
    indexing, or a sample that is not a number (which raises at line 162 or
    163).  Nothing is printed, sent or assigned between line 154 and
    line 163, so the steps need not be told apart. *)
Record World : Type := mkWorld {
  sensor : exn + (spec_float * spec_float * spec_float);
  fresh_memory : nat -> nat -> spec_float;
  can_bind : Z -> bool
}.

(** How a method body ends: the object as it leaves it, the effects in the
    order they happened, and the value returned or the exception raised. *)
Record outcome (A : Type) : Type := mkOutcome {
  final : OscServer;
  effects : list effect;
  result : exn + A
}.
Arguments mkOutcome {A} _ _ _.
Arguments final {A} _.
Arguments effects {A} _.
Arguments result {A} _.

(** A method body: from the object as it finds it to its outcome. *)
Definition Py (A : Type) : Type := OscServer -> outcome A.

Definition ret {A} (a : A) : Py A := fun s => mkOutcome s [] (inr a).

(** One statement after the other: an exception ends the body there, with
    the object and the effects as they are at that point. *)
Definition bind {A B} (c : Py A) (k : A -> Py B) : Py B := fun s =>
  let o := c s in
  match result o with
  | inl e => mkOutcome (final o) (effects o) (inl e)
  | inr a =>
      let o' := k a (final o) in
      mkOutcome (final o') (effects o ++ effects o') (result o')
  end.

Definition raise {A} (e : exn) : Py A := fun s => mkOutcome s [] (inl e).
Definition emit (ev : effect) : Py unit := fun s => mkOutcome s [ev] (inr tt).
Definition gets {A} (f : OscServer -> A) : Py A := fun s => mkOutcome s [] (inr (f s)).
Definition modify (f : OscServer -> OscServer) : Py unit := fun s => mkOutcome (f s) [] (inr tt).
Definition print (l : console_line) : Py unit := emit (Print l).
Definition when (b : bool) (c : Py unit) : Py unit := if b then c else ret tt.

(** Reading an attribute that [listen] creates. *)
Definition attr {A} (f : OscServer -> option A) : Py A := fun s =>
  match f s with
  | Some a => mkOutcome s [] (inr a)
  | None => mkOutcome s [] (inl AttributeError)
  end.

(** A computation that does not touch the object. *)
Definition lift {A} (r : exn + A) : Py A :=
  match r with
  | inl e => raise e
  | inr a => ret a
  end.

Declare Scope py_scope.
Delimit Scope py_scope with py.
Notation "x <- c ;; k" := (bind c (fun x => k))
  (at level 100, c at next level, right associativity) : py_scope.
Notation "c ;; k" := (bind c (fun _ => k))
  (at level 100, right associativity) : py_scope.
Open Scope py_scope.

(** Attribute assignments. *)
Definition set_reactor (r : option reactor) (s : OscServer) : OscServer :=
  mkOscServer (verbose s) (recv_portnum s) (send_portnum s) r (_ping_count s)
    (_xfreq s) (_yfreq s) (_xphase s) (_yphase s) (receiver s) (_client_protocol s).
Definition set_ping_count (n : Z) (s : OscServer) : OscServer :=
  mkOscServer (verbose s) (recv_portnum s) (send_portnum s) (_reactor s) n
    (_xfreq s) (_yfreq s) (_xphase s) (_yphase s) (receiver s) (_client_protocol s).
Definition set_xfreq (v : value) (s : OscServer) : OscServer :=
  mkOscServer (verbose s) (recv_portnum s) (send_portnum s) (_reactor s) (_ping_count s)
    v (_yfreq s) (_xphase s) (_yphase s) (receiver s) (_client_protocol s).
Definition set_yfreq (v : value) (s : OscServer) : OscServer :=
  mkOscServer (verbose s) (recv_portnum s) (send_portnum s) (_reactor s) (_ping_count s)
    (_xfreq s) v (_xphase s) (_yphase s) (receiver s) (_client_protocol s).
Definition set_xphase (v : value) (s : OscServer) : OscServer :=
  mkOscServer (verbose s) (recv_portnum s) (send_portnum s) (_reactor s) (_ping_count s)
    (_xfreq s) (_yfreq s) v (_yphase s) (receiver s) (_client_protocol s).
Definition set_yphase (v : value) (s : OscServer) : OscServer :=
  mkOscServer (verbose s) (recv_portnum s) (send_portnum s) (_reactor s) (_ping_count s)
    (_xfreq s) (_yfreq s) (_xphase s) v (receiver s) (_client_protocol s).
Definition set_receiver (r : option Receiver) (s : OscServer) : OscServer :=
  mkOscServer (verbose s) (recv_portnum s) (send_portnum s) (_reactor s) (_ping_count s)
    (_xfreq s) (_yfreq s) (_xphase s) (_yphase s) r (_client_protocol s).
Definition set_client_protocol (c : option client_protocol) (s : OscServer) : OscServer :=
  mkOscServer (verbose s) (recv_portnum s) (send_portnum s) (_reactor s) (_ping_count s)
    (_xfreq s) (_yfreq s) (_xphase s) (_yphase s) (receiver s) c.

(** ** The methods of [OscServer] *)

Definition PYTHON_NODE_RECV_PORT : Z := 12001.
Definition PYTHON_NODE_SEND_PORT : Z := 12000.

(** Lines 55-59. *)
Definition _reset_parameters : Py unit :=
  modify (set_xfreq (VInt 25)) ;;
  modify (set_yfreq (VInt 25)) ;;
  modify (set_xphase (VFloat (S754_zero false))) ;;
  modify (set_yphase (VFloat (S754_zero false))).

(** Lines 43-53.  The four generator parameters come into being in the call
    of [_reset_parameters]; the record is given that call's values at once. *)
Definition __init__ (recv_port send_port : Z) (verbose : bool) : OscServer :=
  final (_reset_parameters
    (mkOscServer verbose recv_port send_port None 0
       (VInt 25) (VInt 25) (VFloat (S754_zero false)) (VFloat (S754_zero false))
       None None)).

(** Lines 108-110: the line is printed whatever [verbose] is. *)
Definition msg_fallback (message : Message) (peer : Endpoint) : Py unit :=
  print (Line_unhandled (address message) peer (getValues message)).

(** Lines 112-115. *)
Definition msg_reset (message : Message) (peer : Endpoint) : Py unit :=
  v <- gets verbose ;;
  when v (print (Line_text "Receive reset request.")) ;;
  _reset_parameters.

(** Lines 117-119: [self._reactor.stop()] is a call on the reactor; what the
    reactor does with it is the runtime's business. *)
Definition msg_quit (message : Message) (peer : Endpoint) : Py unit :=
  v <- gets verbose ;;
  when v (print (Line_text "Received quit request, shutting down.")) ;;
  _ <- attr _reactor ;;
  emit ReactorStop.

(** Modelled from the spec: the codec is missing; an argument that fits its
    field on the wire (section 3: int32, float32, string, blob): an integer
    in the int32 range; a float whose rounding to binary32 does not overflow
    (an infinity is carried as it is).  Packing any other number raises. *)
Definition packable (v : value) : bool :=
  match v with
  | VInt z => (- 2 ^ 31 <=? z) && (z <? 2 ^ 31)
  | VFloat f =>
      match f, np_float32 f with
      | S754_finite _ _ _, S754_infinity _ => false
      | _, _ => true
      end
  | VString _ | VBlob _ => true
  end.

(** Modelled from the spec: the codec is missing; a message that the client
    protocol can turn into a datagram. *)
Definition sendable (m : Message) : bool := forallb packable (arguments m).

(** Modelled from the spec: [DatagramClientProtocol.send] of txosc is not in
    the repository.  [self._client_protocol.send(msg, dest)] takes the
    message, encodes it and writes the datagram.  Integer and float
    arguments are int32 and float32 fields (section 3), and encoding is
    total for well-formed messages only (section 4.1): with an argument
    that does not fit its field the call raises [OverflowError] and no
    datagram leaves; otherwise the datagram is [encode msg]. *)
Definition client_protocol_send (msg : Message) (dest : Endpoint) : Py unit := fun s =>
  mkOutcome s [Send msg dest] (if sendable msg then inr tt else inl OverflowError).

(** Lines 121-129.  The counter is incremented before the reply is built
    and handed to the client protocol. *)
Definition msg_ping (message : Message) (peer : Endpoint) : Py unit :=
  v <- gets verbose ;;
  when v (print (Line_text "Received ping request.")) ;;
  let send_host := host peer in
  modify (fun s => set_ping_count (_ping_count s + 1) s) ;;
  _ <- attr _client_protocol ;;
  n <- gets _ping_count ;;
  p <- gets send_portnum ;;
  client_protocol_send (mkMessage "/pong" [VInt n]) (mkEndpoint send_host p).

(** [l[0]] on a Python list. *)
Definition getitem0 {A} (l : list A) : exn + A :=
  match l with
  | [] => inl IndexError
  | x :: _ => inr x
  end.

(** Lines 131-134. *)
Definition msg_xfreq (message : Message) (peer : Endpoint) : Py unit :=
  x <- lift (getitem0 (getValues message)) ;;
  modify (set_xfreq x) ;;
  v <- gets verbose ;;
  now <- gets _xfreq ;;
  when v (print (Line_xfreq_now now)).

(** Lines 136-139. *)
Definition msg_yfreq (message : Message) (peer : Endpoint) : Py unit :=
  y <- lift (getitem0 (getValues message)) ;;
  modify (set_yfreq y) ;;
  v <- gets verbose ;;
  now <- gets _yfreq ;;
  when v (print (Line_yfreq_now now)).

(** [trajectory[i,:] = x]: every cell of row [i] receives [x], stored as a
    float32; a row that does not exist is an [IndexError]. *)
Definition setitem_row (t : ndarray) (i : nat) (x : spec_float) : exn + ndarray :=
  match t !! i with
  | Some row => inr (<[i := replicate (length row) (np_float32 x)]> t)
  | None => inl IndexError
  end.

(** Lines 141-181.  [tt = np.linspace(...)] (line 150) is computed and never
    used; lines 164-168 are comments. *)
Definition msg_nextframe (w : World) (message : Message) (peer : Endpoint) : Py unit :=
  v <- gets verbose ;;
  when v (print (Line_text "Generating next frame.")) ;;
  let cols := 10%nat in
  let rows := 2%nat in
  let trajectory := np_ndarray rows cols (fresh_memory w) in
  acc <- lift (sensor w) ;;
  let '(accX, accY, accZ) := acc in
  trajectory <- lift (setitem_row trajectory 0 accY) ;;
  trajectory <- lift (setitem_row trajectory 1 accZ) ;;
  let samples := map py_float (flat trajectory) in
  let msg := mkMessage "/trajectory"
               (VInt (Z.of_nat cols) :: VInt (Z.of_nat rows) :: map VFloat samples) in
  let send_host := host peer in
  _ <- attr _client_protocol ;;
  p <- gets send_portnum ;;
  client_protocol_send msg (mkEndpoint send_host p).

(** Modelled from the spec: the fallback that a [txosc.dispatch.Receiver]
    has of its own is not in the repository.  Section 4.2: its default
    behaviour is to log the unmatched address and argument values and take
    no other action. *)
Definition default_fallback (message : Message) (peer : Endpoint) : Py unit :=
  print (Line_unmatched (address message) (getValues message)).

(** The method behind each callback. *)
Definition call (w : World) (cb : callback) : Message -> Endpoint -> Py unit :=
  match cb with
  | cb_reset => msg_reset
  | cb_quit => msg_quit
  | cb_ping => msg_ping
  | cb_xfreq => msg_xfreq
  | cb_yfreq => msg_yfreq
  | cb_nextframe => msg_nextframe w
  | cb_fallback => msg_fallback
  | cb_default_fallback => default_fallback
  end.

(** Modelled from the spec: [txosc.dispatch.Receiver()] is not in the
    repository.  A new handler table has no registration, and its fallback
    is the default one (section 3: exactly one fallback handler is active at
    any time). *)
Definition Receiver_new : Receiver := mkReceiver ∅ (Some cb_default_fallback).

(** Modelled from the spec: [Receiver.addCallback] is not in the repository.
    [register(pattern, handler)]: re-registration of an existing pattern
    overwrites the prior handler (last registration wins). *)
Definition Receiver_addCallback (pattern : string) (cb : callback) (r : Receiver) : Receiver :=
  mkReceiver (<[pattern := cb]> (callbacks r)) (fallback r).

(** Modelled from the spec: the assignment [receiver.fallback = cb] on the
    missing [Receiver]: exactly one fallback handler is active. *)
Definition Receiver_set_fallback (cb : callback) (r : Receiver) : Receiver :=
  mkReceiver (callbacks r) (Some cb).

(** [self.receiver.addCallback(pattern, cb)] *)
Definition addCallback (pattern : string) (cb : callback) : Py unit :=
  r <- attr receiver ;;
  modify (set_receiver (Some (Receiver_addCallback pattern cb r))).

(** [reactor.listenUDP(port, protocol, maxPacketSize=60000)] *)
Definition listenUDP (w : World) (p : Z) : Py unit :=
  emit (ListenUDP p) ;;
  if can_bind w p then ret tt else raise CannotListenError.

(** Lines 72-103. *)
Definition listen (w : World) (r : reactor) : Py unit :=
  modify (set_reactor (Some r)) ;;
  modify (set_receiver (Some Receiver_new)) ;;
  rp <- gets recv_portnum ;;
  listenUDP w rp ;;
  v <- gets verbose ;;
  when v (print (Line_listening rp)) ;;
  modify (set_client_protocol (Some DatagramClientProtocol)) ;;
  listenUDP w 0 ;;
  when v (print Line_ready) ;;
  addCallback "/reset" cb_reset ;;
  addCallback "/quit" cb_quit ;;
  addCallback "/ping" cb_ping ;;
  addCallback "/xfreq" cb_xfreq ;;
  addCallback "/yfreq" cb_yfreq ;;
  addCallback "/nextframe" cb_nextframe ;;
  rc <- attr receiver ;;
  modify (set_receiver (Some (Receiver_set_fallback cb_fallback rc))).

(** The six registered patterns, in the order of lines 89-98. *)
Definition registered_patterns : list string :=
  ["/reset"; "/quit"; "/ping"; "/xfreq"; "/yfreq"; "/nextframe"]%string.

(** ** The Address Dispatcher *)

(** Modelled from the spec: the dispatcher's lookup is not in the
    repository.  Lookup is exact-string match against the registered
    patterns; if no exact match exists, the fallback handler runs.  The
    result lists the handlers that dispatch invokes, in order. *)
Definition matchCallbacks (r : Receiver) (addr : string) : list callback :=
  match callbacks r !! addr with
  | Some cb => [cb]
  | None =>
      match fallback r with
      | Some fb => [fb]
      | None => []
      end
  end.

(** Modelled from the spec: part of the missing dispatcher; the selected
    handlers run one after the other. *)
Fixpoint call_all (w : World) (cbs : list callback) (m : Message) (peer : Endpoint) : Py unit :=
  match cbs with
  | [] => ret tt
  | cb :: rest => call w cb m peer ;; call_all w rest m peer
  end.

(** Modelled from the spec: [Receiver.dispatch] is not in the repository.
    [dispatch(Message, Endpoint)] runs the selected handler synchronously
    with the message and the sender. *)
Definition dispatch (w : World) (m : Message) (peer : Endpoint) : Py unit :=
  r <- attr receiver ;;
  call_all w (matchCallbacks r (address m)) m peer.

(** ** The Wire Codec *)

(** The codec ([txosc.osc]) is not in the repository.  Every definition of
    this part is modelled from the spec, section 4.1: a datagram is the
    pattern string, the type tag string, then the argument bytes in declared
    order, every item padded to 4-byte alignment; integers and floats are
    32-bit fields. *)

(** Modelled from the spec: the codec is missing; the padding byte. *)
Definition NUL : byte := x00.

(** Modelled from the spec: the codec is missing; one byte of a 32-bit
    field. *)
Definition byte_of_Z (z : Z) : byte :=
  default NUL (Byte.of_N (Z.to_N (z mod 256))).

(** Modelled from the spec: the codec is missing; the number a byte
    stands for. *)
Definition Z_of_byte (b : byte) : Z := Z.of_N (Byte.to_N b).

(** Modelled from the spec: the codec is missing; a 32-bit field, most
    significant byte first. *)
Definition pack_u32 (w : Z) : list byte :=
  [byte_of_Z (w / 2 ^ 24); byte_of_Z (w / 2 ^ 16); byte_of_Z (w / 2 ^ 8); byte_of_Z w].

(** Modelled from the spec: the codec is missing; reading a 32-bit field
    fails on truncated input. *)
Definition unpack_u32 (bs : list byte) : option (Z * list byte) :=
  match bs with
  | b0 :: b1 :: b2 :: b3 :: rest =>
      Some (Z_of_byte b0 * 2 ^ 24 + Z_of_byte b1 * 2 ^ 16 + Z_of_byte b2 * 2 ^ 8 + Z_of_byte b3,
            rest)
  | _ => None
  end.

(** Modelled from the spec: the codec is missing; an int32 argument is the
    two's complement of the integer. *)
Definition unsigned32 (z : Z) : Z := z mod 2 ^ 32.

(** Modelled from the spec: the codec is missing; the integer a 32-bit field
    stands for in two's complement. *)
Definition signed32 (w : Z) : Z := if w <? 2 ^ 31 then w else w - 2 ^ 32.

(** Modelled from the spec: the codec is missing; the sign bit of a 32-bit
    float field. *)
Definition sign_bit (s : bool) : Z := if s then 2 ^ 31 else 0.

(** Modelled from the spec: the codec is missing; a float32 argument is the
    IEEE-754 binary32 bit pattern: sign, 8 exponent bits, 23 fraction
    bits. *)
Definition b32_bits (x : spec_float) : Z :=
  match x with
  | S754_zero s => sign_bit s
  | S754_infinity s => sign_bit s + 255 * 2 ^ 23
  | S754_nan => 255 * 2 ^ 23 + 2 ^ 22
  | S754_finite s m e =>
      if Z.pos m <? 2 ^ 23 then sign_bit s + Z.pos m
      else sign_bit s + (e + 150) * 2 ^ 23 + (Z.pos m - 2 ^ 23)
  end.

(** Modelled from the spec: the codec is missing; the binary32 number of a
    bit pattern. *)
Definition b32_of_bits (w : Z) : spec_float :=
  let s := 2 ^ 31 <=? w in
  let ex := (w / 2 ^ 23) mod 256 in
  let mx := w mod 2 ^ 23 in
  if ex =? 0 then
    match mx with
    | Z.pos m => S754_finite s m (-149)
    | _ => S754_zero s
    end
  else if ex =? 255 then
    if mx =? 0 then S754_infinity s else S754_nan
  else
    match mx + 2 ^ 23 with
    | Z.pos m => S754_finite s m (ex - 150)
    | _ => S754_nan
    end.

(** Modelled from the spec: the codec is missing; a string is its bytes, a
    terminating NUL, and NULs up to the next multiple of four. *)
Definition encode_string (s : string) : list byte :=
  let bs := list_byte_of_string s in
  bs ++ NUL :: replicate (3 - length bs mod 4)%nat NUL.

(** Modelled from the spec: the codec is missing; the number of NULs after
    the [n] bytes of a blob. *)
Definition blob_padding (n : nat) : nat := ((4 - n mod 4) mod 4)%nat.

(** Modelled from the spec: the codec is missing; a blob is its 32-bit
    length, its bytes, and NULs up to the next multiple of four. *)
Definition encode_blob (b : list byte) : list byte :=
  pack_u32 (Z.of_nat (length b)) ++ b ++ replicate (blob_padding (length b)) NUL.

(** Modelled from the spec: the codec is missing; the character of the type
    tag string that declares an argument. *)
Definition type_tag (v : value) : byte :=
  match v with
  | VInt _ => "i"%byte
  | VFloat _ => "f"%byte
  | VString _ => "s"%byte
  | VBlob _ => "b"%byte
  end.

(** Modelled from the spec: the codec is missing; the bytes of one
    argument.  An integer is reduced to 32 bits, a float is rounded to
    binary32. *)
Definition encode_argument (v : value) : list byte :=
  match v with
  | VInt z => pack_u32 (unsigned32 z)
  | VFloat f => pack_u32 (b32_bits (np_float32 f))
  | VString s => encode_string s
  | VBlob b => encode_blob b
  end.

(** Modelled from the spec: the codec is missing; [encode(Message) -> bytes]:
    pattern string, type tag string, argument bytes in declared order. *)
Definition encode (m : Message) : list byte :=
  encode_string (address m)
  ++ encode_string (string_of_list_byte (","%byte :: map type_tag (arguments m)))
  ++ concat (map encode_argument (arguments m)).

(** Modelled from the spec: the codec is missing; [DecodeError::Malformed]. *)
Inductive DecodeError : Type := Malformed.

(** Modelled from the spec: the codec is missing; the bytes before the first
    NUL, and the bytes after it; no NUL at all is truncated input. *)
Fixpoint split_nul (bs : list byte) : option (list byte * list byte) :=
  match bs with
  | [] => None
  | b :: rest =>
      if Byte.eqb b NUL then Some ([], rest)
      else '(s, rest') ← split_nul rest; Some (b :: s, rest')
  end.

(** Modelled from the spec: the codec is missing; [n] padding bytes, which
    must all be there and be NUL. *)
Fixpoint skip_padding (n : nat) (bs : list byte) : option (list byte) :=
  match n with
  | O => Some bs
  | S n' =>
      match bs with
      | b :: rest => if Byte.eqb b NUL then skip_padding n' rest else None
      | [] => None
      end
  end.

(** Modelled from the spec: the codec is missing; a string and the bytes
    after its padding. *)
Definition decode_string (bs : list byte) : option (string * list byte) :=
  '(s, rest) ← split_nul bs;
  rest' ← skip_padding (3 - length s mod 4)%nat rest;
  Some (string_of_list_byte s, rest').

(** Modelled from the spec: the codec is missing; a blob and the bytes after
    its padding. *)
Definition decode_blob (bs : list byte) : option (list byte * list byte) :=
  '(n, rest) ← unpack_u32 bs;
  let len := Z.to_nat n in
  if (length rest <? len)%nat then None
  else
    rest' ← skip_padding (blob_padding len) (drop len rest);
    Some (take len rest, rest').

(** Modelled from the spec: the codec is missing; one argument, as its type
    tag declares it; an unknown tag is malformed. *)
Definition decode_argument (tag : byte) (bs : list byte) : option (value * list byte) :=
  if Byte.eqb tag "i" then
    '(w, rest) ← unpack_u32 bs; Some (VInt (signed32 w), rest)
  else if Byte.eqb tag "f" then
    '(w, rest) ← unpack_u32 bs; Some (VFloat (py_float (b32_of_bits w)), rest)
  else if Byte.eqb tag "s" then
    '(s, rest) ← decode_string bs; Some (VString s, rest)
  else if Byte.eqb tag "b" then
    '(b, rest) ← decode_blob bs; Some (VBlob b, rest)
  else None.

(** Modelled from the spec: the codec is missing; the arguments in declared
    order. *)
Fixpoint decode_arguments (tags : list byte) (bs : list byte) : option (list value) :=
  match tags with
  | [] => Some []
  | t :: ts =>
      '(v, rest) ← decode_argument t bs;
      vs ← decode_arguments ts rest;
      Some (v :: vs)
  end.

(** Modelled from the spec: the codec is missing;
    [decode(bytes) -> Result<Message, DecodeError>] fails with [Malformed] on
    truncated input, unknown type tags, or misaligned padding. *)
Definition decode (bs : list byte) : DecodeError + Message :=
  match
    '(addr, rest) ← decode_string bs;
    '(tags, rest') ← decode_string rest;
    match list_byte_of_string tags with
    | t :: ts =>
        if Byte.eqb t "," then
          args ← decode_arguments ts rest'; Some (mkMessage addr args)
        else None
    | [] => None
    end
  with
  | Some m => inr m
  | None => inl Malformed
  end.

(** Modelled from the spec: the spec does not say what a well-formed
    message is; here it is a message the wire format can carry without loss:
    no NUL inside a string, integers in the int32 range, floats that are
    binary32 numbers, blobs whose length fits the length field. *)
Definition nul_free (s : string) : bool :=
  forallb (fun b => negb (Byte.eqb b NUL)) (list_byte_of_string s).

(** Equality of two numbers as data (a NaN equals a NaN, the two zeros
    differ). *)
Definition spec_float_eqb (x y : spec_float) : bool :=
  match x, y with
  | S754_zero s, S754_zero s' => Bool.eqb s s'
  | S754_infinity s, S754_infinity s' => Bool.eqb s s'
  | S754_nan, S754_nan => true
  | S754_finite s m e, S754_finite s' m' e' => Bool.eqb s s' && Pos.eqb m m' && Z.eqb e e'
  | _, _ => false
  end.

(** A Python float that is a binary32 number: rounding it to binary32 and
    reading that back gives the float again. *)
Definition is_float32 (f : spec_float) : bool :=
  spec_float_eqb (py_float (np_float32 f)) f.

(** Modelled from the spec: well-formedness of one argument, see
    [nul_free]. *)
Definition well_formed_value (v : value) : bool :=
  match v with
  | VInt z => (- 2 ^ 31 <=? z) && (z <? 2 ^ 31)
  | VFloat f => is_float32 f
  | VString s => nul_free s
  | VBlob b => Z.of_nat (length b) <? 2 ^ 32
  end.

(** Modelled from the spec: well-formedness of a message, see
    [nul_free]. *)
Definition well_formed (m : Message) : bool :=
  nul_free (address m) && forallb well_formed_value (arguments m).

(** ** What [listen] installs *)

(** The registrations of lines 89-98, in order. *)
Definition registrations : list (string * callback) :=
  [("/reset", cb_reset); ("/quit", cb_quit); ("/ping", cb_ping);
   ("/xfreq", cb_xfreq); ("/yfreq", cb_yfreq); ("/nextframe", cb_nextframe)]%string.

(** The receiver as lines 75 and 89-101 leave it. *)
Definition handlers : Receiver :=
  Receiver_set_fallback cb_fallback
    (Receiver_addCallback "/nextframe" cb_nextframe
      (Receiver_addCallback "/yfreq" cb_yfreq
        (Receiver_addCallback "/xfreq" cb_xfreq
          (Receiver_addCallback "/ping" cb_ping
            (Receiver_addCallback "/quit" cb_quit
              (Receiver_addCallback "/reset" cb_reset Receiver_new)))))).

(** The object once [listen] has returned. *)
Definition listening (s : OscServer) : Prop :=
  _reactor s = Some TwistedReactor
  /\ receiver s = Some handlers
  /\ _client_protocol s = Some DatagramClientProtocol.

(** The messages handed to the client protocol, in order. *)
Definition sends (out : list effect) : list (Message * Endpoint) :=
  omap (fun ev => match ev with Send m dest => Some (m, dest) | _ => None end) out.

(** One handler run on each request in turn, every run on the object the
    previous one left. *)
Fixpoint for_each {A} (h : A -> Py unit) (l : list A) : Py unit :=
  match l with
  | [] => ret tt
  | a :: rest => h a ;; for_each h rest
  end.

(** The reply expected for the request at position [i] (from 0) of a run of
    pings that starts with the counter at [base]. *)
Definition pong_for (s : OscServer) (base : Z) (i : nat) (req : Message * Endpoint)
    : Message * Endpoint :=
  (mkMessage "/pong" [VInt (base + Z.of_nat i + 1)],
   mkEndpoint (host req.2) (send_portnum s)).

(** ** The Node Runtime *)

(** Modelled from the spec: the event loop (the Twisted reactor and the
    datagram protocol of txosc) is not in the repository.  Section 4.5:
    [Created -> Listening -> Running -> Stopped]. *)
Inductive runtime_state : Type := Created | Listening | Running | Stopped.

(** Modelled from the spec: the event loop is missing; the runtime is its
    state and the server object it drives. *)
Record Node : Type := mkNode {
  state : runtime_state;
  server : OscServer
}.

(** Modelled from the spec: the event loop is missing; an inbound datagram
    is its bytes, its sender, and the world as the handler will find it. *)
Record Datagram : Type := mkDatagram {
  payload : list byte;
  sender : Endpoint;
  world : World
}.

(** Modelled from the spec: the event loop is missing; the stop flag that a
    handler sets is the call [reactor.stop()] among its effects. *)
Definition is_stop (ev : effect) : bool :=
  match ev with
  | ReactorStop => true
  | _ => false
  end.

(** Modelled from the spec: the event loop is missing.  Sections 4.1, 4.2
    and 7: a datagram is decoded, then dispatched; a malformed datagram is
    dropped and logged; a handler failure is caught at the dispatch
    boundary and logged. *)
Definition on_datagram (d : Datagram) (s : OscServer) : OscServer * list effect :=
  match decode (payload d) with
  | inl Malformed => (s, [Print Line_malformed])
  | inr m =>
      let o := dispatch (world d) m (sender d) s in
      (final o,
       effects o ++ match result o with
                    | inl e => [Print (Line_handler_failed e)]
                    | inr _ => []
                    end)
  end.

(** Modelled from the spec: the event loop is missing; what can happen to a
    node: [listen()], [run()], a datagram. *)
Inductive event : Type :=
| Ev_listen (w : World)
| Ev_run
| Ev_datagram (d : Datagram).

(** Modelled from the spec: the event loop is missing; the process after an
    event is still there, or gone with the exception that ended it. *)
Inductive progress : Type :=
| Continue (n : Node) (out : list effect)
| Fatal (e : exn) (out : list effect).

(** Modelled from the spec: the event loop is missing.  Sections 4.5, 5 and
    7: a bind failure in [listen] is fatal; datagrams are processed only
    while [Running]; the stop requested by a handler is observed before the
    next datagram; nothing leaves [Stopped]. *)
Definition step (n : Node) (ev : event) : progress :=
  match state n, ev with
  | Created, Ev_listen w =>
      let o := listen w TwistedReactor (server n) in
      match result o with
      | inr _ => Continue (mkNode Listening (final o)) (effects o)
      | inl e => Fatal e (effects o)
      end
  | Listening, Ev_run => Continue (mkNode Running (server n)) []
  | Running, Ev_datagram d =>
      let '(s', out) := on_datagram d (server n) in
      Continue (mkNode (if existsb is_stop out then Stopped else Running) s') out
  | _, _ => Continue n []
  end.

(** Modelled from the spec: the event loop is missing; events are taken in
    the order of delivery, and a fatal one ends the run. *)
Fixpoint run (n : Node) (evs : list event) : progress :=
  match evs with
  | [] => Continue n []
  | ev :: rest =>
      match step n ev with
      | Continue n' out =>
          match run n' rest with
          | Continue n'' out' => Continue n'' (out ++ out')
          | Fatal e out' => Fatal e (out ++ out')
          end
      | Fatal e out => Fatal e out
      end
  end.

(** Lines 187-197: the script builds the server with the default ports. *)
Definition main (verbose : bool) : Node :=
  mkNode Created (__init__ PYTHON_NODE_RECV_PORT PYTHON_NODE_SEND_PORT verbose).

(** The argument lists of the [/pong] messages handed over among the
    effects, in order. *)
Definition pongs (out : list effect) : list (list value) :=
  omap (fun sent : Message * Endpoint =>
          if String.eqb (address sent.1) "/pong" then Some (arguments sent.1) else None)
       (sends out).

(** The argument lists [c + 1], [c + 2], ..., [c + k]. *)
Fixpoint counting_from (c : Z) (k : nat) : list (list value) :=
  match k with
  | O => []
  | S k' => [VInt (c + 1)] :: counting_from (c + 1) k'
  end.

(** ** Concrete surroundings *)

(** The SensorSource stub of the specification, returning
    [{accX:1.0, accY:2.0, accZ:3.0}]; array memory starts as NaNs and every
    port can be bound. *)
Definition stub_world : World :=
  mkWorld (inr (float_of_Z 1, float_of_Z 2, float_of_Z 3)) (fun _ _ => S754_nan) (fun _ => true).

(** The same with a sensor that cannot be reached. *)
Definition unreachable_world : World :=
  mkWorld (inl (SensorError "ConnectionError")) (fun _ _ => S754_nan) (fun _ => true).

(** The script's server once [listen] has returned. *)
Definition started (verbose : bool) : OscServer :=
  final (listen stub_world TwistedReactor (server (main verbose))).

(** ** Histories of handler invocations *)

(** One invocation of a bound method: the world it finds, the method, the
    message and the sender it is called with. *)
Record Invocation : Type := mkInvocation {
  inv_world : World;
  inv_callback : callback;
  inv_message : Message;
  inv_peer : Endpoint
}.

Definition invoke (c : Invocation) : Py unit :=
  call (inv_world c) (inv_callback c) (inv_message c) (inv_peer c).

(** The object after the invocations of a history, one after the other: an
    invocation that raises leaves the object as it was when it raised, and
    the next one runs on that. *)
Definition replay (cs : list Invocation) (s : OscServer) : OscServer :=
  fold_left (fun s c => final (invoke c s)) cs s.

Definition is_ping (cb : callback) : bool :=
  match cb with
  | cb_ping => true
  | _ => false
  end.

(** The number of [/ping] invocations in a history. *)
Definition pings_in (cs : list Invocation) : nat :=
  length (List.filter (fun c => is_ping (inv_callback c)) cs).

(** The assignment [self.verbose = b]. *)
Definition set_verbose (b : bool) (s : OscServer) : OscServer :=
  mkOscServer b (recv_portnum s) (send_portnum s) (_reactor s) (_ping_count s)
    (_xfreq s) (_yfreq s) (_xphase s) (_yphase s) (receiver s) (_client_protocol s).

(** The effects other than console lines. *)
Definition outward (out : list effect) : list effect :=
  List.filter (fun ev => match ev with Print _ => false | _ => true end) out.

(** When a handler raises on a listening server, and what: [/xfreq] and
    [/yfreq] on a message without argument, [/nextframe] when reading the
    sensor raises, [/ping] when the incremented counter does not fit the
    int32 argument of the reply. *)
Definition raised_by (w : World) (cb : callback) (m : Message) (s : OscServer) : exn + unit :=
  match cb with
  | cb_xfreq | cb_yfreq =>
      match getValues m with
      | [] => inl IndexError
      | _ :: _ => inr tt
      end
  | cb_nextframe =>
      match sensor w with
      | inl e => inl e
      | inr _ => inr tt
      end
  | cb_ping =>
      if packable (VInt (_ping_count s + 1)) then inr tt else inl OverflowError
  | cb_reset | cb_quit | cb_fallback | cb_default_fallback => inr tt
  end.

(** The object a handler leaves, as a function of the method and the message
    alone. *)
Definition next_state (cb : callback) (m : Message) (s : OscServer) : OscServer :=
  match cb with
  | cb_reset => final (_reset_parameters s)
  | cb_ping => set_ping_count (_ping_count s + 1) s
  | cb_xfreq =>
      match getValues m with
      | v :: _ => set_xfreq v s
      | [] => s
      end
  | cb_yfreq =>
      match getValues m with
      | v :: _ => set_yfreq v s
      | [] => s
      end
  | cb_quit | cb_nextframe | cb_fallback | cb_default_fallback => s
  end.

(** A world in which the receive port of the script is taken. *)
Definition recv_port_taken_world : World :=
  mkWorld (inr (float_of_Z 1, float_of_Z 2, float_of_Z 3)) (fun _ _ => S754_nan)
    (fun p => negb (p =? PYTHON_NODE_RECV_PORT)).

(** A world in which no ephemeral port is left for the sending socket. *)
Definition no_ephemeral_port_world : World :=
  mkWorld (inr (float_of_Z 1, float_of_Z 2, float_of_Z 3)) (fun _ _ => S754_nan)
    (fun p => negb (p =? 0)).

(** * Properties *)

(** ** Running method bodies *)

Ltac py_unfold :=
  unfold when, print, lift, bind, ret, raise, emit, gets, modify, attr in *.

(** The outcome of a hand-over to the client protocol is a case
    distinction on whether the message can be sent. *)
Ltac split_ifs :=
  repeat match goal with |- context [if ?b then _ else _] => destruct b end.

Arguments np_float32 : simpl never.
Arguments py_float : simpl never.

Lemma bind_returned {A B} (c : Py A) (k : A -> Py B) (s s1 : OscServer)
    (out : list effect) (a : A) :
  c s = mkOutcome s1 out (inr a) ->
  bind c k s = mkOutcome (final (k a s1)) (out ++ effects (k a s1)) (result (k a s1)).
Proof. intros H. unfold bind. by rewrite H. Qed.

Lemma bind_raised {A B} (c : Py A) (k : A -> Py B) (s s1 : OscServer)
    (out : list effect) (e : exn) :
  c s = mkOutcome s1 out (inl e) ->
  bind c k s = mkOutcome s1 out (inl e).
Proof. intros H. unfold bind. by rewrite H. Qed.

Lemma sends_app (a b : list effect) : sends (a ++ b) = sends a ++ sends b.
Proof. unfold sends. apply omap_app. Qed.

Lemma sends_send (m : Message) (dest : Endpoint) : sends [Send m dest] = [(m, dest)].
Proof. reflexivity. Qed.

Lemma sends_print_line (b : bool) (l : console_line) :
  sends (if b then [Print l] else []) = [].
Proof. by destruct b. Qed.

(** ** Floating-point formats *)

Lemma digits2_pos_bounds (m : positive) :
  2 ^ (Z.pos (digits2_pos m) - 1) <= Z.pos m < 2 ^ Z.pos (digits2_pos m).
Proof.
  induction m as [p IH|p IH|]; simpl digits2_pos.
  - rewrite Pos2Z.inj_succ. replace (Z.succ (Z.pos (digits2_pos p)) - 1)
      with (Z.succ (Z.pos (digits2_pos p) - 1)) by lia.
    rewrite !Z.pow_succ_r by lia. lia.
  - rewrite Pos2Z.inj_succ. replace (Z.succ (Z.pos (digits2_pos p)) - 1)
      with (Z.succ (Z.pos (digits2_pos p) - 1)) by lia.
    rewrite !Z.pow_succ_r by lia. lia.
  - simpl. lia.
Qed.

(** The finite binary32 numbers: subnormal ones have the least exponent and
    less than 23 bits, normal ones exactly 24 bits. *)
Lemma bounded_binary32 (m : positive) (e : Z) :
  bounded 24 128 m e = true ->
  (Z.pos m < 2 ^ 23 /\ e = -149) \/ (2 ^ 23 <= Z.pos m < 2 ^ 24 /\ -149 <= e <= 104).
Proof.
  unfold bounded, canonical_mantissa, fexp, emin.
  rewrite andb_true_iff, Z.eqb_eq, Z.leb_le. intros [Hc He].
  pose proof (digits2_pos_bounds m) as Hd.
  destruct (Z.lt_ge_cases (Z.pos (digits2_pos m)) 24) as [Hlt|Hge].
  - left. split; [|lia].
    apply Z.lt_le_trans with (2 ^ Z.pos (digits2_pos m)); [lia|].
    apply Z.pow_le_mono_r; lia.
  - right. assert (Z.pos (digits2_pos m) = 24) as Heq by lia.
    rewrite Heq in Hd. change (24 - 1) with 23 in Hd. lia.
Qed.

Lemma spec_float_eqb_eq (x y : spec_float) : spec_float_eqb x y = true -> x = y.
Proof.
  destruct x as [s|s| |s m e], y as [s'|s'| |s' m' e']; simpl; try done.
  - intros H. by rewrite (eqb_prop _ _ H).
  - intros H. by rewrite (eqb_prop _ _ H).
  - rewrite !andb_true_iff, Pos.eqb_eq, Z.eqb_eq. intros [[Hs ->] ->].
    by rewrite (eqb_prop _ _ Hs).
Qed.

Lemma iter_pos_iter {A} (f : A -> A) (n : positive) (x : A) :
  SpecFloat.iter_pos f n x = Pos.iter f x n.
Proof.
  revert x. induction n as [n IH|n IH|]; intros x; simpl.
  - by rewrite !IH, <- !Pos.iter_swap.
  - by rewrite !IH.
  - done.
Qed.

Lemma digits2_pos_shifted (m k : positive) :
  digits2_pos (Pos.iter xO m k) = (digits2_pos m + k)%positive.
Proof.
  induction k as [|k IH] using Pos.peano_ind.
  - simpl. lia.
  - rewrite Pos.iter_succ. simpl. rewrite IH. lia.
Qed.

Lemma Zdigits2_bounds (x : Z) :
  0 < x -> 2 ^ (Zdigits2 x - 1) <= x < 2 ^ Zdigits2 x.
Proof. destruct x as [|p|p]; try lia. intros _. apply digits2_pos_bounds. Qed.

Lemma Zdigits2_unique (x a : Z) :
  2 ^ (a - 1) <= x < 2 ^ a -> 0 < x -> Zdigits2 x = a.
Proof.
  intros Ha Hx. pose proof (Zdigits2_bounds x Hx) as Hd.
  assert (0 < Zdigits2 x) by (destruct x; simpl; lia).
  assert (0 < a).
  { destruct (Z.lt_ge_cases 0 a) as [|Hle]; [done|].
    destruct (Z.eq_dec a 0) as [->|]; [simpl in Ha; lia|].
    rewrite (Z.pow_neg_r 2 a) in Ha by lia. lia. }
  destruct (Z.lt_trichotomy (Zdigits2 x) a) as [Hlt|[Heq|Hgt]]; [|done|].
  - assert (2 ^ Zdigits2 x <= 2 ^ (a - 1)) by (apply Z.pow_le_mono_r; lia). lia.
  - assert (2 ^ a <= 2 ^ (Zdigits2 x - 1)) by (apply Z.pow_le_mono_r; lia). lia.
Qed.

Lemma shr_1_half (mrs : shr_record) :
  0 <= shr_m mrs -> shr_m (shr_1 mrs) = shr_m mrs / 2.
Proof.
  destruct mrs as [m r s]. simpl. intros Hm.
  destruct m as [|[p|p|]|p]; simpl; try lia; try done.
  - apply (Z.div_unique (Z.pos p~1) 2 (Z.pos p) 1); lia.
  - apply (Z.div_unique (Z.pos p~0) 2 (Z.pos p) 0); lia.
Qed.

Lemma shr_iter_div (p : positive) (mrs : shr_record) :
  0 <= shr_m mrs ->
  shr_m (Pos.iter shr_1 mrs p) = shr_m mrs / 2 ^ Z.pos p.
Proof.
  intros Hm. induction p as [|p IH] using Pos.peano_ind.
  - simpl. by rewrite shr_1_half.
  - rewrite Pos.iter_succ, shr_1_half, IH.
    + rewrite Pos2Z.inj_succ, Z.pow_succ_r by lia.
      rewrite Z.div_div by lia. f_equal. lia.
    + rewrite IH. apply Z.div_pos; lia.
Qed.

Lemma round_nearest_even_step (m : Z) (l : location) :
  round_nearest_even m l = m \/ round_nearest_even m l = m + 1.
Proof. destruct l as [|[]]; simpl; auto. destruct (Z.even m); auto. Qed.

Section Rounding.
Variables prec emax : Z.
Hypothesis Hprec : 0 < prec.

Local Abbreviation fexp := (SpecFloat.fexp prec emax).
Local Abbreviation emin := (SpecFloat.emin prec emax).

Local Abbreviation placed := (in_place prec emax).

Lemma in_place_canonical (m : positive) (e : Z) :
  placed (Z.pos m) e -> canonical_mantissa prec emax m e = true.
Proof.
  unfold canonical_mantissa. intros [[Hm He]|[Hm He]]; apply Z.eqb_eq.
  - change (Z.pos (digits2_pos m)) with (Zdigits2 (Z.pos m)).
    rewrite (Zdigits2_unique _ prec Hm) by lia. unfold SpecFloat.fexp. lia.
  - pose proof (digits2_pos_bounds m) as Hd.
    assert (Z.pos (digits2_pos m) <= prec - 1).
    { destruct (Z.le_gt_cases (Z.pos (digits2_pos m)) (prec - 1)) as [|Hgt]; [done|].
      assert (2 ^ (prec - 1) <= 2 ^ (Z.pos (digits2_pos m) - 1))
        by (apply Z.pow_le_mono_r; lia).
      lia. }
    unfold SpecFloat.fexp. lia.
Qed.

Lemma shr_fexp_in_place (m : positive) (e : Z) (l : location) :
  e <= fexp (Z.pos (digits2_pos m) + e) ->
  placed (shr_m (shr_fexp prec emax (Z.pos m) e l).1) (shr_fexp prec emax (Z.pos m) e l).2.
Proof.
  intros He. unfold shr_fexp. simpl Zdigits2.
  pose proof (digits2_pos_bounds m) as Hd.
  set (d := Z.pos (digits2_pos m)) in *.
  assert (0 < d) as Hd0 by (subst d; lia).
  destruct (fexp (d + e) - e) as [|n|n] eqn:Hn; [| |lia].
  - (* no shift *)
    simpl. replace (shr_m (shr_record_of_loc (Z.pos m) l)) with (Z.pos m)
      by (by destruct l as [|[]]).
    unfold SpecFloat.fexp in Hn. unfold in_place.
    destruct (Z.max_spec (d + e - prec) emin) as [[Hlt Hmx]|[Hle Hmx]].
    + destruct (Z.eq_dec d prec) as [Heq|Hne].
      * left. rewrite Heq in Hd. lia.
      * right. split; [|lia]. split; [lia|].
        apply Z.lt_le_trans with (2 ^ d); [lia|]. apply Z.pow_le_mono_r; lia.
    + left. assert (d = prec) as Heq by lia. rewrite Heq in Hd. lia.
  - (* a shift by [n] bits *)
    unfold shr. rewrite iter_pos_iter. cbn [fst snd].
    assert (shr_m (shr_record_of_loc (Z.pos m) l) = Z.pos m) as Hm0
      by (by destruct l as [|[]]).
    rewrite shr_iter_div by (rewrite Hm0; lia). rewrite Hm0.
    unfold SpecFloat.fexp in Hn.
    assert (d - prec <= Z.pos n) as Hge by lia.
    assert (emin <= e + Z.pos n) as Hemin by lia.
    assert (Z.pos m / 2 ^ Z.pos n < 2 ^ prec) as Hup.
    { apply Z.div_lt_upper_bound; [lia|]. rewrite <- Z.pow_add_r by lia.
      apply Z.lt_le_trans with (2 ^ d); [lia|]. apply Z.pow_le_mono_r; lia. }
    assert (0 <= Z.pos m / 2 ^ Z.pos n) as Hlow by (apply Z.div_pos; lia).
    destruct (Z.eq_dec (Z.pos n) (d - prec)) as [Heq|Hne].
    + left. split; [|lia]. split; [|done].
      apply Z.div_le_lower_bound; [lia|]. rewrite <- Z.pow_add_r by lia.
      replace (Z.pos n + (prec - 1)) with (d - 1) by lia. lia.
    + assert (e + Z.pos n = emin) as Hat by lia.
      destruct (Z.le_gt_cases (2 ^ (prec - 1)) (Z.pos m / 2 ^ Z.pos n)).
      * left. lia.
      * right. lia.
Qed.

(** The rounding step of every operation: from a mantissa whose exponent is
    not above its place, the result is a number of the format. *)
Lemma binary_round_aux_valid (s : bool) (m : positive) (e : Z) (l : location) :
  e <= fexp (Z.pos (digits2_pos m) + e) ->
  valid_binary prec emax (binary_round_aux prec emax s (Z.pos m) e l) = true.
Proof.
  intros He. unfold binary_round_aux.
  pose proof (shr_fexp_in_place m e l He) as Hp.
  destruct (shr_fexp prec emax (Z.pos m) e l) as [mrs1 e1]. cbn [fst snd] in Hp.
  set (m2 := round_nearest_even (shr_m mrs1) (loc_of_shr_record mrs1)).
  assert (placed m2 e1 \/ (m2 = 2 ^ prec /\ emin <= e1)) as Hq.
  { destruct (round_nearest_even_step (shr_m mrs1) (loc_of_shr_record mrs1)) as [Hr|Hr];
      fold m2 in Hr; rewrite Hr; [by left|].
    unfold in_place in *. destruct Hp as [[Hm He1]|[Hm He1]].
    - destruct (Z.eq_dec (shr_m mrs1 + 1) (2 ^ prec)); [right; lia | left; left; lia].
    - destruct (Z.eq_dec (shr_m mrs1 + 1) (2 ^ (prec - 1))) as [Heq|Hne].
      + left. left. rewrite Heq. split; [|lia]. split; [lia|].
        apply Z.pow_lt_mono_r; lia.
      + left. right. lia. }
  clearbody m2. unfold shr_fexp.
  assert (0 < 2 ^ (prec - 1)) as Hpow by (apply Z.pow_pos_nonneg; lia).
  destruct Hq as [Hq|[-> He1]].
  - (* already in place: the second normalisation changes nothing *)
    assert (fexp (Zdigits2 m2 + e1) - e1 <= 0) as Hn.
    { destruct m2 as [|p|p].
      - simpl. unfold SpecFloat.fexp. destruct Hq as [[? ?]|[? ?]]; lia.
      - pose proof (in_place_canonical p e1 Hq) as Hc.
        unfold canonical_mantissa in Hc. apply Z.eqb_eq in Hc. simpl. lia.
      - destruct Hq as [[? ?]|[? ?]]; lia. }
    assert (shr (shr_record_of_loc m2 loc_Exact) e1 (fexp (Zdigits2 m2 + e1) - e1)
            = (shr_record_of_loc m2 loc_Exact, e1)) as ->.
    { unfold shr. by destruct (fexp (Zdigits2 m2 + e1) - e1); [| lia |]. }
    simpl. destruct m2 as [|p|p]; [done| |destruct Hq as [[? ?]|[? ?]]; lia].
    destruct (Z.leb_spec e1 (emax - prec)) as [Hle|_]; [|done].
    simpl. unfold bounded. rewrite (in_place_canonical p e1 Hq).
    by apply Z.leb_le.
  - (* the mantissa was rounded up to [2 ^ prec]: one more bit is shifted out *)
    assert (Zdigits2 (2 ^ prec) = prec + 1) as Hdig.
    { apply Zdigits2_unique; [|lia].
      replace (prec + 1 - 1) with prec by lia. split; [lia|].
      apply Z.pow_lt_mono_r; lia. }
    rewrite Hdig.
    assert (fexp (prec + 1 + e1) - e1 = 1) as -> by (unfold SpecFloat.fexp; lia).
    unfold shr.
    change (SpecFloat.iter_pos shr_1 1 (shr_record_of_loc (2 ^ prec) loc_Exact))
      with (shr_1 (Build_shr_record (2 ^ prec) false false)).
    rewrite shr_1_half by (simpl; lia). cbn [shr_m].
    assert (2 ^ prec / 2 = 2 ^ (prec - 1)) as Hdiv.
    { replace prec with (Z.succ (prec - 1)) at 1 by lia.
      rewrite Z.pow_succ_r by lia. rewrite Z.mul_comm. apply Z.div_mul. lia. }
    rewrite Hdiv.
    destruct (2 ^ (prec - 1)) as [|p|p] eqn:Hp2; [lia| |lia].
    destruct (Z.leb_spec (e1 + 1) (emax - prec)) as [Hle|_]; [|done].
    simpl. unfold bounded. rewrite in_place_canonical; [by apply Z.leb_le|].
    left. rewrite <- Hp2. split; [|lia]. split; [lia|]. apply Z.pow_lt_mono_r; lia.
Qed.

Lemma binary_round_valid (s : bool) (m : positive) (e : Z) :
  valid_binary prec emax (binary_round prec emax s m e) = true.
Proof.
  unfold binary_round, shl_align.
  destruct (fexp (Z.pos (digits2_pos m) + e) - e) as [|n|n] eqn:Hn.
  - apply binary_round_aux_valid. lia.
  - apply binary_round_aux_valid. lia.
  - apply binary_round_aux_valid. rewrite digits2_pos_shifted.
    replace (Z.pos (digits2_pos m + n) + fexp (Z.pos (digits2_pos m) + e))
      with (Z.pos (digits2_pos m) + e) by lia.
    lia.
Qed.
End Rounding.

(** Whatever is stored in a float32 array is a binary32 number. *)
Lemma np_float32_valid (x : spec_float) : valid_binary 24 128 (np_float32 x) = true.
Proof.
  destruct x as [s|s| |s m e]; try done.
  apply binary_round_valid; lia.
Qed.

Lemma shr_1_shifted (m k : positive) :
  Pos.iter shr_1 (Build_shr_record (Z.pos (Pos.iter xO m k)) false false) k
  = Build_shr_record (Z.pos m) false false.
Proof.
  induction k as [|k IH] using Pos.peano_ind.
  - reflexivity.
  - rewrite (Pos.iter_succ k _ xO), Pos.iter_succ, <- Pos.iter_swap. simpl. exact IH.
Qed.

(** A binary32 number read as a Python float: the mantissa is shifted to 53
    bits, the value is the same. *)
Lemma py_float_binary32 (s : bool) (m : positive) (e : Z) :
  bounded 24 128 m e = true ->
  let k := Z.to_pos (53 - Z.pos (digits2_pos m)) in
  py_float (S754_finite s m e) = S754_finite s (Pos.iter xO m k) (e - Z.pos k).
Proof.
  intros Hb k.
  pose proof (digits2_pos_bounds m) as Hd.
  assert (Z.pos (digits2_pos m) <= 24 /\ -149 <= e <= 104) as [Hd24 He].
  { destruct (bounded_binary32 m e Hb) as [[Hm ->]|[Hm He]]; split; try lia.
    - destruct (Z.le_gt_cases (Z.pos (digits2_pos m)) 24) as [|Hgt]; [done|].
      assert (2 ^ 24 <= 2 ^ (Z.pos (digits2_pos m) - 1)) by (apply Z.pow_le_mono_r; lia).
      lia.
    - destruct (Z.le_gt_cases (Z.pos (digits2_pos m)) 24) as [|Hgt]; [done|].
      assert (2 ^ 24 <= 2 ^ (Z.pos (digits2_pos m) - 1)) by (apply Z.pow_le_mono_r; lia).
      lia. }
  assert (Z.pos k = 53 - Z.pos (digits2_pos m)) as Hk by (subst k; lia).
  unfold py_float, binary_round, shl_align.
  assert (fexp 53 1024 (Z.pos (digits2_pos m) + e) - e = Z.neg k) as ->.
  { unfold fexp, emin. lia. }
  unfold binary_round_aux, shr_fexp. simpl Zdigits2.
  rewrite digits2_pos_shifted.
  assert (fexp 53 1024 (Z.pos (digits2_pos m) + e) = e - Z.pos k) as ->.
  { unfold fexp, emin. lia. }
  assert (fexp 53 1024 (Z.pos (digits2_pos m + k) + (e - Z.pos k)) - (e - Z.pos k) = 0) as ->.
  { unfold fexp, emin. lia. }
  simpl. rewrite digits2_pos_shifted.
  assert (fexp 53 1024 (Z.pos (digits2_pos m + k) + (e - Z.pos k)) - (e - Z.pos k) = 0) as ->.
  { unfold fexp, emin. lia. }
  simpl. destruct (Z.leb_spec (e - Z.pos k) (1024 - 53)); [done | lia].
Qed.

(** Rounding that float to binary32 gives the number back. *)
Lemma np_float32_py_float (x : spec_float) :
  valid_binary 24 128 x = true -> np_float32 (py_float x) = x.
Proof.
  destruct x as [s|s| |s m e]; try done. simpl valid_binary. intros Hb.
  rewrite (py_float_binary32 s m e Hb).
  set (k := Z.to_pos (53 - Z.pos (digits2_pos m))).
  pose proof (digits2_pos_bounds m) as Hd.
  pose proof Hb as Hb'. unfold bounded in Hb'.
  apply andb_true_iff in Hb' as [Hc%Z.eqb_eq He%Z.leb_le].
  assert (-149 <= e) as He' by (unfold fexp, emin in Hc; lia).
  assert (Z.pos (digits2_pos m) <= 24) as Hd24 by (unfold fexp, emin in Hc; lia).
  assert (Z.pos k = 53 - Z.pos (digits2_pos m)) as Hk by (subst k; lia).
  unfold np_float32, binary_round, shl_align.
  rewrite digits2_pos_shifted.
  replace (Z.pos (digits2_pos m + k) + (e - Z.pos k)) with (Z.pos (digits2_pos m) + e) by lia.
  rewrite Hc.
  replace (e - (e - Z.pos k)) with (Z.pos k) by lia.
  unfold binary_round_aux, shr_fexp. simpl Zdigits2.
  rewrite digits2_pos_shifted.
  replace (Z.pos (digits2_pos m + k) + (e - Z.pos k)) with (Z.pos (digits2_pos m) + e) by lia.
  rewrite Hc.
  replace (e - (e - Z.pos k)) with (Z.pos k) by lia.
  unfold shr at 1. cbn [shr_record_of_loc].
  rewrite iter_pos_iter, shr_1_shifted.
  replace (e - Z.pos k + Z.pos k) with e by lia.
  cbn [shr_m loc_of_shr_record round_nearest_even Zdigits2 shr_record_of_loc].
  rewrite Hc, Z.sub_diag. cbn [shr shr_m].
  by rewrite (proj2 (Z.leb_le _ _) He).
Qed.

Lemma spec_float_eqb_refl (x : spec_float) : spec_float_eqb x x = true.
Proof.
  destruct x as [s|s| |s m e]; simpl; try done.
  - by destruct s.
  - by destruct s.
  - rewrite Pos.eqb_refl, Z.eqb_refl. by destruct s.
Qed.

(** The floats the codec carries without loss are the binary32 numbers. *)
Lemma is_float32_binary32 (f : spec_float) :
  is_float32 f = true <-> exists x, valid_binary 24 128 x = true /\ f = py_float x.
Proof.
  unfold is_float32. split.
  - intros Heq%spec_float_eqb_eq. exists (np_float32 f).
    split; [apply np_float32_valid | done].
  - intros (x & Hv & ->). rewrite (np_float32_py_float x Hv).
    apply spec_float_eqb_refl.
Qed.

(** Every sample of a [/trajectory] reply is such a number. *)
Lemma sample_is_float32 (x : spec_float) : is_float32 (py_float (np_float32 x)) = true.
Proof. apply is_float32_binary32. exists (np_float32 x). split; [apply np_float32_valid | done]. Qed.

(** ** The parameter store *)

Lemma _reset_parameters_outcome (s : OscServer) :
  _reset_parameters s =
  mkOutcome
    (mkOscServer (verbose s) (recv_portnum s) (send_portnum s) (_reactor s) (_ping_count s)
       (VInt 25) (VInt 25) (VFloat (S754_zero false)) (VFloat (S754_zero false))
       (receiver s) (_client_protocol s))
    [] (inr tt).
Proof. reflexivity. Qed.

Lemma msg_reset_outcome (m : Message) (peer : Endpoint) (s : OscServer) :
  msg_reset m peer s =
  mkOutcome (final (_reset_parameters s))
    (if verbose s then [Print (Line_text "Receive reset request.")] else [])
    (inr tt).
Proof.
  destruct s as [vb rp sp re pc xf yf xp yp rc cp]. by destruct vb.
Qed.

(** C6.  Whatever the object holds when a [/reset] message is handled, the
    handler returns normally and leaves xfreq = 25, yfreq = 25 and both
    phases 0.0; handling a second [/reset] changes nothing more; and the four
    parameters after a reset are the same from any two histories. *)
Theorem reset_restores_defaults (m m' : Message) (peer peer' : Endpoint) (s s2 : OscServer) :
  let s' := final (msg_reset m peer s) in
  result (msg_reset m peer s) = inr tt
  /\ _xfreq s' = VInt 25
  /\ _yfreq s' = VInt 25
  /\ _xphase s' = VFloat (S754_zero false)
  /\ _yphase s' = VFloat (S754_zero false)
  /\ final (msg_reset m' peer' s') = s'
  /\ (_xfreq s', _yfreq s', _xphase s', _yphase s')
     = (let s2' := final (msg_reset m' peer' s2) in
        (_xfreq s2', _yfreq s2', _xphase s2', _yphase s2')).
Proof.
  intros s'. subst s'. rewrite !msg_reset_outcome. simpl. repeat split.
Qed.

Lemma resets_keep_ping_count (resets : list (Message * Endpoint)) (s : OscServer) :
  let o := for_each (fun req => msg_reset req.1 req.2) resets s in
  result o = inr tt
  /\ _ping_count (final o) = _ping_count s
  /\ _client_protocol (final o) = _client_protocol s
  /\ send_portnum (final o) = send_portnum s.
Proof.
  revert s. induction resets as [|[m peer] resets IH]; intros s; simpl; [done|].
  rewrite (bind_returned _ _ _ _ _ _ (msg_reset_outcome m peer s)).
  cbn [final effects result fst snd].
  destruct (IH (final (_reset_parameters s))) as (Hres & Hcnt & Hcp & Hsp).
  by rewrite Hres, Hcnt, Hcp, Hsp.
Qed.

(** C9.  Handling [/reset], once or any number of times, leaves the ping
    counter as it was; the constructor is where it is set to 0; a [/ping]
    handled after the resets moves the counter to the old value plus one and
    (on a listening server) answers with that value. *)
Theorem reset_keeps_ping_count (m m' : Message) (peer peer' : Endpoint)
    (resets : list (Message * Endpoint)) (s : OscServer)
    (recv_port send_port : Z) (v : bool) :
  let s' := final (for_each (fun req => msg_reset req.1 req.2) resets s) in
  _ping_count (final (msg_reset m peer s)) = _ping_count s
  /\ _ping_count s' = _ping_count s
  /\ _ping_count (__init__ recv_port send_port v) = 0
  /\ _ping_count (final (msg_ping m' peer' s')) = _ping_count s + 1
  /\ sends (effects (msg_ping m' peer' s'))
     = match _client_protocol s with
       | Some _ => [(mkMessage "/pong" [VInt (_ping_count s + 1)],
                     mkEndpoint (host peer') (send_portnum s))]
       | None => []
       end.
Proof.
  intros s'.
  destruct (resets_keep_ping_count resets s) as (_ & Hcnt & Hcp & Hsp).
  fold s' in Hcnt, Hcp, Hsp. clearbody s'.
  rewrite msg_reset_outcome.
  split; [done|]. split; [done|]. split; [done|].
  destruct s' as [vb rp sp re pc xf yf xp yp rc cp]. simpl in *. subst pc cp sp.
  split.
  - by destruct vb, (_client_protocol s).
  - by destruct vb, (_client_protocol s).
Qed.

(** ** Frequency parameters *)

(** C10.  A [/xfreq] (or [/yfreq]) message with at least one argument sets
    the parameter to the first argument, whatever value that is, and touches
    nothing else; with no argument the indexing raises [IndexError] and the
    object is left as it was. *)
Theorem freq_set_from_first_argument (addr : string) (v : value) (rest : list value)
    (peer : Endpoint) (s : OscServer) :
  msg_xfreq (mkMessage addr (v :: rest)) peer s
  = mkOutcome (set_xfreq v s) (if verbose s then [Print (Line_xfreq_now v)] else []) (inr tt)
  /\ msg_yfreq (mkMessage addr (v :: rest)) peer s
  = mkOutcome (set_yfreq v s) (if verbose s then [Print (Line_yfreq_now v)] else []) (inr tt)
  /\ msg_xfreq (mkMessage addr []) peer s = mkOutcome s [] (inl IndexError)
  /\ msg_yfreq (mkMessage addr []) peer s = mkOutcome s [] (inl IndexError).
Proof.
  destruct s as [vb rp sp re pc xf yf xp yp rc cp].
  repeat split; by destruct vb.
Qed.

(** ** Ping *)

Lemma packable_int (n : Z) : packable (VInt n) = true <-> - 2 ^ 31 <= n < 2 ^ 31.
Proof. simpl. rewrite andb_true_iff, Z.leb_le, Z.ltb_lt. done. Qed.

Lemma sendable_pong (n : Z) : sendable (mkMessage "/pong" [VInt n]) = packable (VInt n).
Proof. unfold sendable. simpl. apply andb_true_r. Qed.

(** The handler on a server that has its client protocol: the counter is
    incremented and the reply handed over whatever the counter is; the
    handler returns when the new counter fits the int32 argument of the
    reply, and the hand-over raises when it does not. *)
Lemma msg_ping_outcome (m : Message) (peer : Endpoint) (s : OscServer) (cp : client_protocol) :
  _client_protocol s = Some cp ->
  msg_ping m peer s =
  mkOutcome (set_ping_count (_ping_count s + 1) s)
    ((if verbose s then [Print (Line_text "Received ping request.")] else [])
     ++ [Send (mkMessage "/pong" [VInt (_ping_count s + 1)])
           (mkEndpoint (host peer) (send_portnum s))])
    (if packable (VInt (_ping_count s + 1)) then inr tt else inl OverflowError).
Proof.
  rewrite <- sendable_pong.
  destruct s as [vb rp sp re pc xf yf xp yp rc cp']. simpl. intros ->.
  by destruct vb.
Qed.

Lemma msg_ping_returns (m : Message) (peer : Endpoint) (s : OscServer) (cp : client_protocol) :
  _client_protocol s = Some cp ->
  - 2 ^ 31 <= _ping_count s + 1 < 2 ^ 31 ->
  msg_ping m peer s =
  mkOutcome (set_ping_count (_ping_count s + 1) s)
    ((if verbose s then [Print (Line_text "Received ping request.")] else [])
     ++ [Send (mkMessage "/pong" [VInt (_ping_count s + 1)])
           (mkEndpoint (host peer) (send_portnum s))])
    (inr tt).
Proof.
  intros Hcp Hfit. rewrite (msg_ping_outcome m peer s cp Hcp).
  apply packable_int in Hfit. by rewrite Hfit.
Qed.

Lemma msg_ping_overflows (m : Message) (peer : Endpoint) (s : OscServer) (cp : client_protocol) :
  _client_protocol s = Some cp ->
  2 ^ 31 <= _ping_count s + 1 ->
  msg_ping m peer s =
  mkOutcome (set_ping_count (_ping_count s + 1) s)
    ((if verbose s then [Print (Line_text "Received ping request.")] else [])
     ++ [Send (mkMessage "/pong" [VInt (_ping_count s + 1)])
           (mkEndpoint (host peer) (send_portnum s))])
    (inl OverflowError).
Proof.
  intros Hcp Hbig. rewrite (msg_ping_outcome m peer s cp Hcp).
  destruct (packable (VInt (_ping_count s + 1))) eqn:Hfit; [|done].
  apply packable_int in Hfit. lia.
Qed.

Lemma pings_from (pings : list (Message * Endpoint)) (s : OscServer) (cp : client_protocol) :
  _client_protocol s = Some cp ->
  - 2 ^ 31 <= _ping_count s + 1 ->
  _ping_count s + Z.of_nat (length pings) < 2 ^ 31 ->
  let o := for_each (fun req => msg_ping req.1 req.2) pings s in
  result o = inr tt
  /\ _ping_count (final o) = _ping_count s + Z.of_nat (length pings)
  /\ _client_protocol (final o) = _client_protocol s
  /\ send_portnum (final o) = send_portnum s
  /\ sends (effects o) = imap (pong_for s (_ping_count s)) pings.
Proof.
  revert s. induction pings as [|[m peer] pings IH]; intros s Hcp Hlo Hhi.
  - simpl. split; [done|]. split; [lia | done].
  - assert (Hfit : - 2 ^ 31 <= _ping_count s + 1 < 2 ^ 31) by (cbn [length] in Hhi; lia).
    cbn [for_each fst snd].
    rewrite (bind_returned _ _ _ _ _ _ (msg_ping_returns m peer s cp Hcp Hfit)).
    destruct (IH (set_ping_count (_ping_count s + 1) s) Hcp)
      as (Hres & Hcnt & Hcp' & Hsp & Hsends).
    { simpl. lia. }
    { simpl in *. lia. }
    simpl in *. split; [done|]. split; [lia|]. split; [done|]. split; [done|].
    rewrite <- app_assoc, !sends_app, sends_print_line, Hsends. simpl.
    unfold pong_for at 2. simpl. f_equal.
    + by rewrite Z.add_0_r.
    + apply imap_ext. intros i req _. unfold pong_for. simpl.
      by replace (_ping_count s + 1 + Z.of_nat i) with (_ping_count s + Z.of_nat (S i)) by lia.
Qed.

(** Requests handled after others that all returned. *)
Lemma for_each_app {A} (h : A -> Py unit) (l1 l2 : list A) (s : OscServer) :
  result (for_each h l1 s) = inr tt ->
  for_each h (l1 ++ l2) s =
  let o1 := for_each h l1 s in
  let o2 := for_each h l2 (final o1) in
  mkOutcome (final o2) (effects o1 ++ effects o2) (result o2).
Proof.
  revert s. induction l1 as [|a l1 IH]; intros s.
  - intros _. cbn. by destruct (for_each h l2 s).
  - cbn [app for_each]. unfold bind.
    destruct (h a s) as [s1 out1 [e|[]]]; cbn [result final effects]; [done|].
    intros Hrest. rewrite (IH _ Hrest). cbn [final effects result].
    by rewrite app_assoc.
Qed.

(** The ping that finds the counter at [2^31 - 1], after that many pings
    answered since the start. *)
Lemma ping_number_2_31 (k : nat) (req : Message * Endpoint) (s : OscServer) :
  _client_protocol s = Some DatagramClientProtocol ->
  _ping_count s = 0 ->
  Z.of_nat k = 2 ^ 31 - 1 ->
  let o := for_each (fun r => msg_ping r.1 r.2) (replicate k req ++ [req]) s in
  result o = inl OverflowError
  /\ _ping_count (final o) = 2 ^ 31
  /\ (length (sends (effects o)) = S k
      /\ last (sends (effects o))
         = Some (mkMessage "/pong" [VInt (2 ^ 31)], mkEndpoint (host req.2) (send_portnum s)))
  /\ sendable (mkMessage "/pong" [VInt (2 ^ 31)]) = false.
Proof.
  intros Hcp H0 Hk.
  destruct (pings_from (replicate k req) s _ Hcp) as (Hres & Hcnt & Hcp' & Hsp & Hsends).
  { rewrite H0. lia. }
  { rewrite H0, length_replicate. lia. }
  rewrite length_replicate, H0, Hk in Hcnt.
  intros o. subst o. rewrite (for_each_app _ _ _ _ Hres). cbn zeta.
  set (o1 := for_each _ (replicate k req) s) in *.
  cbn [for_each].
  assert (Hlast : msg_ping req.1 req.2 (final o1) =
    mkOutcome (set_ping_count (2 ^ 31) (final o1))
      ((if verbose (final o1) then [Print (Line_text "Received ping request.")] else [])
       ++ [Send (mkMessage "/pong" [VInt (2 ^ 31)])
             (mkEndpoint (host req.2) (send_portnum (final o1)))])
      (inl OverflowError)).
  { rewrite (msg_ping_overflows req.1 req.2 (final o1) DatagramClientProtocol).
    - rewrite Hcnt. by replace (2 ^ 31 - 1 + 1) with (2 ^ 31) by lia.
    - by rewrite Hcp'.
    - rewrite Hcnt. lia. }
  rewrite (bind_raised _ _ _ _ _ _ Hlast). cbn [final effects result].
  split; [done|]. split; [done|]. split; [|done].
  rewrite !sends_app, sends_print_line, Hsends, sends_send, app_nil_l.
  split.
  - rewrite length_app, length_imap, length_replicate. cbn [length]. lia.
  - by rewrite last_snoc, Hsp.
Qed.

(** C2.  On a listening server whose counter is 0, as the constructor leaves
    it, handling fewer than 2^31 pings one after the other returns normally
    each time, the counter ends at the number of pings, and the datagrams
    sent are exactly one [/pong] per ping, the n-th carrying n (1, 2, ...)
    and addressed to the host of the n-th ping's sender on the server's send
    port: the value depends on the position alone, not on the sender. *)
Theorem ping_replies_count_up (s : OscServer) (pings : list (Message * Endpoint)) :
  _client_protocol s = Some DatagramClientProtocol ->
  _ping_count s = 0 ->
  Z.of_nat (length pings) < 2 ^ 31 ->
  let o := for_each (fun req => msg_ping req.1 req.2) pings s in
  result o = inr tt
  /\ _ping_count (final o) = Z.of_nat (length pings)
  /\ sends (effects o) = imap (pong_for s 0) pings
  /\ Forall (fun sent : Message * Endpoint => sendable sent.1 = true) (sends (effects o)).
Proof.
  intros Hcp H0 Hlen.
  destruct (pings_from pings s _ Hcp) as (Hres & Hcnt & _ & _ & Hsends).
  { rewrite H0. lia. }
  { rewrite H0. lia. }
  rewrite H0 in Hcnt, Hsends. cbn zeta. rewrite Hres, Hcnt, Hsends.
  split; [done|]. split; [done|]. split; [done|].
  apply Forall_lookup. intros i sent Hi.
  apply list_lookup_imap_Some in Hi as (req & Hreq & ->).
  apply lookup_lt_Some in Hreq.
  unfold pong_for. cbn [fst]. rewrite sendable_pong. apply packable_int. lia.
Qed.

Lemma ping_replies_count_up_witness :
  let pings := [(mkMessage "/ping" [], mkEndpoint "10.0.0.1" 5000);
                (mkMessage "/ping" [VInt 7], mkEndpoint "10.0.0.2" 6000)] in
  (_client_protocol (started false) = Some DatagramClientProtocol
   /\ _ping_count (started false) = 0
   /\ Z.of_nat (length pings) < 2 ^ 31)
  /\ sends (effects (for_each (fun req => msg_ping req.1 req.2) pings (started false)))
     = [(mkMessage "/pong" [VInt 1], mkEndpoint "10.0.0.1" 12000);
        (mkMessage "/pong" [VInt 2], mkEndpoint "10.0.0.2" 12000)].
Proof.
  intros pings. split; [split; [reflexivity | split; [reflexivity | reflexivity]]|].
  exact (proj1 (proj2 (proj2
    (ping_replies_count_up (started false) pings eq_refl eq_refl eq_refl)))).
Defined.

(** Without the bound on the number of pings the statement fails.  On the
    script's listening server, whose counter is 0, 2^31 pings from one
    sender are handled one after the other.  The first 2^31 - 1 are
    answered; the last one finds the counter at 2^31 - 1, increments it to
    2^31 and hands over a [/pong] whose argument does not fit the int32
    field, so that the hand-over raises [OverflowError] and no datagram
    leaves: the 2^31-th ping is not answered with a [/pong] carrying
    2^31. *)
Lemma ping_replies_count_up_fails_at_2_31 :
  let req := (mkMessage "/ping" [], mkEndpoint "10.0.0.1" 5000) in
  let pings := replicate (Z.to_nat 2147483647) req ++ [req] in
  let o := for_each (fun r => msg_ping r.1 r.2) pings (started false) in
  (_client_protocol (started false) = Some DatagramClientProtocol
   /\ _ping_count (started false) = 0)
  /\ result o = inl OverflowError
  /\ result o <> inr tt
  /\ last (sends (effects o))
     = Some (mkMessage "/pong" [VInt 2147483648], mkEndpoint "10.0.0.1" 12000)
  /\ sendable (mkMessage "/pong" [VInt 2147483648]) = false.
Proof.
  intros req pings o. split; [split; reflexivity|].
  destruct (ping_number_2_31 (Z.to_nat 2147483647) req (started false) eq_refl eq_refl)
    as (Hres & _ & (_ & Hlast) & Hno).
  { apply Z2Nat.id. lia. }
  fold pings in Hres, Hlast. fold o in Hres, Hlast.
  split; [exact Hres|]. split; [by rewrite Hres|]. split; [exact Hlast | exact Hno].
Qed.

(** The other handlers leave the counter alone. *)
Lemma ping_count_frame (w : World) (cb : callback) (m : Message) (peer : Endpoint)
    (s : OscServer) :
  cb <> cb_ping ->
  _ping_count (final (call w cb m peer s)) = _ping_count s.
Proof.
  intros Hcb. destruct s as [vb rp sp re pc xf yf xp yp rc cp].
  destruct cb; try done; simpl.
  - by destruct vb.
  - by destruct vb, re.
  - destruct m as [addr [|x args]]; by destruct vb.
  - destruct m as [addr [|x args]]; by destruct vb.
  - destruct w as [[e|[[x y] z]] mem cb]; by destruct vb, cp.
Qed.

(** ** Next frame *)

(** A binary32 number read back as a Python float can be packed as a
    float32 field: rounding it does not overflow. *)
Lemma binary32_packable (x : spec_float) :
  valid_binary 24 128 x = true -> packable (VFloat (py_float x)) = true.
Proof.
  intros Hx. cbn [packable].
  destruct (py_float x) as [b|b| |b m e] eqn:Hf; try reflexivity.
  rewrite <- Hf, (np_float32_py_float _ Hx).
  by destruct x.
Qed.

(** Every sample of a reply is such a number. *)
Lemma sample_packable (x : spec_float) : packable (VFloat (py_float (np_float32 x))) = true.
Proof. apply binary32_packable, np_float32_valid. Qed.

(** A well-formed message can always be sent. *)
Lemma well_formed_sendable (m : Message) : well_formed m = true -> sendable m = true.
Proof.
  unfold well_formed, sendable. intros [_ Hargs]%andb_prop.
  induction (arguments m) as [|v args IH]; [done|].
  cbn [forallb] in *. apply andb_prop in Hargs as [Hv Hargs].
  rewrite (IH Hargs), andb_true_r.
  destruct v as [z|f|str|b]; try done.
  apply is_float32_binary32 in Hv as (x & Hx & ->). by apply binary32_packable.
Qed.

Lemma forallb_replicate {A} (f : A -> bool) (n : nat) (x : A) :
  f x = true -> forallb f (replicate n x) = true.
Proof. intros Hx. induction n as [|n IH]; simpl; [done|]. by rewrite Hx, IH. Qed.

(** The client protocol can always turn the reply of [/nextframe] into a
    datagram. *)
Lemma trajectory_sendable (accY accZ : spec_float) :
  sendable (mkMessage "/trajectory"
              (VInt 10 :: VInt 2
               :: replicate 10 (VFloat (py_float (np_float32 accY)))
               ++ replicate 10 (VFloat (py_float (np_float32 accZ))))) = true.
Proof.
  unfold sendable. cbn [arguments forallb]. rewrite forallb_app.
  rewrite !forallb_replicate by apply sample_packable. reflexivity.
Qed.

(** What the handler does with any three samples. *)
Lemma msg_nextframe_outcome (w : World) (m : Message) (peer : Endpoint) (s : OscServer)
    (accX accY accZ : spec_float) (cp : client_protocol) :
  sensor w = inr (accX, accY, accZ) ->
  _client_protocol s = Some cp ->
  msg_nextframe w m peer s =
  mkOutcome s
    ((if verbose s then [Print (Line_text "Generating next frame.")] else [])
     ++ [Send (mkMessage "/trajectory"
                 (VInt 10 :: VInt 2
                  :: replicate 10 (VFloat (py_float (np_float32 accY)))
                  ++ replicate 10 (VFloat (py_float (np_float32 accZ)))))
           (mkEndpoint (host peer) (send_portnum s))])
    (inr tt).
Proof.
  destruct s as [vb rp sp re pc xf yf xp yp rc cp'], w as [sens mem cb].
  cbn [sensor _client_protocol verbose send_portnum]. intros -> ->.
  pose (reply := mkMessage "/trajectory"
                   (VInt 10 :: VInt 2
                    :: replicate 10 (VFloat (py_float (np_float32 accY)))
                    ++ replicate 10 (VFloat (py_float (np_float32 accZ))))).
  transitivity
    (mkOutcome (mkOscServer vb rp sp re pc xf yf xp yp rc (Some cp))
       ((if vb then [Print (Line_text "Generating next frame.")] else [])
        ++ [Send reply (mkEndpoint (host peer) sp)])
       (if sendable reply then inr tt else inl OverflowError : exn + unit)).
  - by destruct vb.
  - subst reply. by rewrite trajectory_sendable.
Qed.

Lemma msg_nextframe_raises (w : World) (m : Message) (peer : Endpoint) (s : OscServer)
    (e : exn) :
  sensor w = inl e ->
  msg_nextframe w m peer s =
  mkOutcome s (if verbose s then [Print (Line_text "Generating next frame.")] else []) (inl e).
Proof.
  destruct s as [vb rp sp re pc xf yf xp yp rc cp'], w as [sens mem cb].
  simpl. intros ->. by destruct vb.
Qed.

Lemma float32_keeps_2_and_3 :
  py_float (np_float32 (float_of_Z 2)) = float_of_Z 2
  /\ py_float (np_float32 (float_of_Z 3)) = float_of_Z 3.
Proof. split; vm_compute; reflexivity. Qed.

(** C1.  With a sensor that returns accX = 1.0, accY = 2.0, accZ = 3.0, and
    whatever the message, its sender and the content of fresh array memory
    are, the handler of [/nextframe] on a listening server fills a buffer of
    2 rows by 10 columns, row 0 with accY and row 1 with accZ in every column,
    and hands exactly one datagram to the client protocol: [/trajectory] with
    the arguments 10, 2 and then the 20 samples row after row (ten times 2.0,
    ten times 3.0), addressed to the sender's host on the server's send port.
    The object is unchanged and the handler returns normally. *)
Theorem nextframe_replies_trajectory (m : Message) (peer : Endpoint) (s : OscServer)
    (mem : nat -> nat -> spec_float) (bindable : Z -> bool) :
  _client_protocol s = Some DatagramClientProtocol ->
  let w := mkWorld (inr (float_of_Z 1, float_of_Z 2, float_of_Z 3)) mem bindable in
  match setitem_row (np_ndarray 2 10 mem) 0 (float_of_Z 2) with
  | inr t => setitem_row t 1 (float_of_Z 3)
  | inl e => inl e
  end = inr [replicate 10 (np_float32 (float_of_Z 2));
             replicate 10 (np_float32 (float_of_Z 3))]
  /\ msg_nextframe w m peer s =
     mkOutcome s
       ((if verbose s then [Print (Line_text "Generating next frame.")] else [])
        ++ [Send (mkMessage "/trajectory"
                    (VInt 10 :: VInt 2
                     :: replicate 10 (VFloat (float_of_Z 2))
                     ++ replicate 10 (VFloat (float_of_Z 3))))
              (mkEndpoint (host peer) (send_portnum s))])
       (inr tt).
Proof.
  intros Hcp w. split; [reflexivity|].
  rewrite (msg_nextframe_outcome w m peer s _ _ _ _ eq_refl Hcp).
  destruct float32_keeps_2_and_3 as [-> ->]. reflexivity.
Qed.

Lemma nextframe_replies_trajectory_witness :
  _client_protocol (started true) = Some DatagramClientProtocol
  /\ sends (effects (msg_nextframe stub_world (mkMessage "/nextframe" [])
                      (mkEndpoint "192.168.1.20" 51000) (started true)))
     = [(mkMessage "/trajectory"
           (VInt 10 :: VInt 2
            :: replicate 10 (VFloat (float_of_Z 2)) ++ replicate 10 (VFloat (float_of_Z 3))),
         mkEndpoint "192.168.1.20" 12000)].
Proof.
  split; [reflexivity|].
  pose proof (nextframe_replies_trajectory (mkMessage "/nextframe" [])
                (mkEndpoint "192.168.1.20" 51000) (started true)
                (fun _ _ => S754_nan) (fun _ => true) eq_refl) as [_ H].
  change (mkWorld _ _ _) with stub_world in H. rewrite H. reflexivity.
Defined.

(** ** Listening and dispatch *)

Lemma attr_present {A} (f : OscServer -> option A) (s : OscServer) (a : A) :
  f s = Some a -> attr f s = mkOutcome s [] (inr a).
Proof. intros H. unfold attr. by rewrite H. Qed.

Lemma outcome_eta {A} (o : outcome A) : mkOutcome (final o) (effects o) (result o) = o.
Proof. by destruct o. Qed.

Lemma call_all_single (w : World) (cb : callback) (m : Message) (peer : Endpoint)
    (s : OscServer) :
  call_all w [cb] m peer s = call w cb m peer s.
Proof.
  simpl. unfold bind, ret. destruct (call w cb m peer s) as [s' out [e|[]]]; simpl.
  - done.
  - by rewrite app_nil_r.
Qed.

Lemma dispatch_runs (w : World) (m : Message) (peer : Endpoint) (s : OscServer) (r : Receiver) :
  receiver s = Some r ->
  dispatch w m peer s = call_all w (matchCallbacks r (address m)) m peer s.
Proof.
  intros Hr. unfold dispatch.
  rewrite (bind_returned _ _ _ _ _ _ (attr_present receiver s r Hr)). simpl.
  apply outcome_eta.
Qed.

Lemma listenUDP_bound (w : World) (p : Z) (s : OscServer) :
  can_bind w p = true -> listenUDP w p s = mkOutcome s [ListenUDP p] (inr tt).
Proof. intros H. unfold listenUDP. py_unfold. simpl. by rewrite H. Qed.

Lemma listenUDP_refused (w : World) (p : Z) (s : OscServer) :
  can_bind w p = false ->
  listenUDP w p s = mkOutcome s [ListenUDP p] (inl CannotListenError).
Proof. intros H. unfold listenUDP. py_unfold. simpl. by rewrite H. Qed.

Lemma bind_eval {A B} (c : Py A) (k : A -> Py B) (s s1 s2 : OscServer)
    (out out2 : list effect) (a : A) (r : exn + B) :
  c s = mkOutcome s1 out (inr a) ->
  k a s1 = mkOutcome s2 out2 r ->
  bind c k s = mkOutcome s2 (out ++ out2) r.
Proof. intros H1 H2. rewrite (bind_returned _ _ _ _ _ _ H1), H2. done. Qed.

Ltac py_step :=
  eapply bind_eval;
  [ first [ reflexivity
          | eapply listenUDP_bound; eassumption
          | eapply attr_present; reflexivity ]
  | cbv beta ].

(** What [listen] does when both ports can be bound. *)
Lemma listen_outcome (w : World) (s : OscServer) :
  can_bind w (recv_portnum s) = true ->
  can_bind w 0 = true ->
  listen w TwistedReactor s =
  mkOutcome
    (set_receiver (Some handlers)
       (set_client_protocol (Some DatagramClientProtocol)
          (set_reactor (Some TwistedReactor) s)))
    (ListenUDP (recv_portnum s)
     :: (if verbose s then [Print (Line_listening (recv_portnum s))] else [])
     ++ ListenUDP 0 :: (if verbose s then [Print Line_ready] else []))
    (inr tt).
Proof.
  destruct s as [vb rp sp re pc xf yf xp yp rc cp].
  cbn [recv_portnum verbose]. intros H1 H2.
  destruct vb.
  - etransitivity; [unfold listen; repeat py_step; reflexivity | reflexivity].
  - etransitivity; [unfold listen; repeat py_step; reflexivity | reflexivity].
Qed.

(** [listen] installs the table and the handles, and touches neither the
    counter nor the send port. *)
Lemma listen_installs (w : World) (s : OscServer) :
  can_bind w (recv_portnum s) = true ->
  can_bind w 0 = true ->
  result (listen w TwistedReactor s) = inr tt
  /\ listening (final (listen w TwistedReactor s))
  /\ _ping_count (final (listen w TwistedReactor s)) = _ping_count s
  /\ send_portnum (final (listen w TwistedReactor s)) = send_portnum s.
Proof.
  intros H1 H2. rewrite (listen_outcome w s H1 H2). by repeat split.
Qed.

(** When the receive port cannot be bound, [listen] raises. *)
Lemma listen_bind_failure (w : World) (s : OscServer) :
  can_bind w (recv_portnum s) = false ->
  result (listen w TwistedReactor s) = inl CannotListenError.
Proof.
  intros H1. unfold listen.
  do 3 (erewrite bind_returned; [|reflexivity]; cbn [result]; cbv beta).
  erewrite bind_raised; [done|]. by apply listenUDP_refused.
Qed.

Lemma started_listening (v : bool) : listening (started v).
Proof. by destruct v. Qed.

(** Every handler leaves the handles and the table in place. *)
Lemma call_keeps_listening (w : World) (cb : callback) (m : Message) (peer : Endpoint)
    (s : OscServer) :
  listening s -> listening (final (call w cb m peer s)).
Proof.
  destruct s as [vb rp sp re pc xf yf xp yp rc cp].
  unfold listening. simpl. intros (-> & -> & ->).
  destruct cb; simpl.
  - by destruct vb.
  - by destruct vb.
  - by destruct vb.
  - destruct m as [addr [|x args]]; by destruct vb.
  - destruct m as [addr [|x args]]; by destruct vb.
  - destruct w as [[e|[[x y] z]] mem cb]; by destruct vb.
  - done.
  - done.
Qed.

Lemma unregistered_lookup (addr : string) :
  ~ In addr registered_patterns -> callbacks handlers !! addr = None.
Proof.
  intros Hnot. unfold handlers, Receiver_set_fallback, Receiver_addCallback, Receiver_new.
  simpl.
  rewrite !lookup_insert_ne by (intros <-; apply Hnot; simpl; tauto).
  apply lookup_empty.
Qed.

Lemma registered_patterns_registrations : registered_patterns = map fst registrations.
Proof. reflexivity. Qed.

Lemma registered_lookup (addr : string) (cb : callback) :
  In (addr, cb) registrations ->
  matchCallbacks handlers addr = [cb] /\ cb <> cb_fallback.
Proof.
  simpl. intros [H|[H|[H|[H|[H|[H|[]]]]]]]; inversion H as [[Ha Hc]];
    split; solve [vm_compute; reflexivity | discriminate].
Qed.

Section Dispatching.
Context (w : World) (m : Message) (peer : Endpoint) (s : OscServer).
Hypothesis Hreceiver : receiver s = Some handlers.

Lemma dispatch_registered (cb : callback) :
  In (address m, cb) registrations ->
  dispatch w m peer s = call w cb m peer s.
Proof.
  intros Hin. destruct (registered_lookup _ _ Hin) as [Hm _].
  rewrite (dispatch_runs w m peer s handlers Hreceiver), Hm.
  apply call_all_single.
Qed.

Lemma dispatch_unregistered :
  ~ In (address m) registered_patterns ->
  matchCallbacks handlers (address m) = [cb_fallback]
  /\ dispatch w m peer s = msg_fallback m peer s.
Proof.
  intros Hnot.
  assert (matchCallbacks handlers (address m) = [cb_fallback]) as Hm.
  { unfold matchCallbacks. by rewrite (unregistered_lookup _ Hnot). }
  split; [done|].
  rewrite (dispatch_runs w m peer s handlers Hreceiver), Hm.
  apply call_all_single.
Qed.

(** C4.  On a server holding the table that [listen] installs, a message
    whose address is one of the six registered patterns selects exactly one
    handler, the one registered for that pattern, which is not the
    fallback; dispatching the message is running that handler on it. *)
Theorem dispatch_routes_registered (cb : callback) :
  In (address m, cb) registrations ->
  matchCallbacks handlers (address m) = [cb]
  /\ cb <> cb_fallback
  /\ dispatch w m peer s = call w cb m peer s.
Proof.
  intros Hin. destruct (registered_lookup _ _ Hin) as [Hm Hcb].
  repeat split; try done. by apply dispatch_registered.
Qed.

(** C5.  On a server holding the table that [listen] installs, a message
    whose address is none of the six registered patterns selects the
    fallback and nothing else; dispatching it prints one line with the
    address, the sender and the argument values, hands nothing to the
    client protocol, and leaves the whole object, the four parameters
    included, as it was. *)
Theorem dispatch_falls_back :
  ~ In (address m) registered_patterns ->
  matchCallbacks handlers (address m) = [cb_fallback]
  /\ dispatch w m peer s
     = mkOutcome s [Print (Line_unhandled (address m) peer (getValues m))] (inr tt)
  /\ sends (effects (dispatch w m peer s)) = []
  /\ (let s' := final (dispatch w m peer s) in
      (_xfreq s', _yfreq s', _xphase s', _yphase s')
      = (_xfreq s, _yfreq s, _xphase s, _yphase s)).
Proof.
  intros Hnot. destruct (dispatch_unregistered Hnot) as [Hm Hd].
  rewrite Hd. by repeat split.
Qed.
End Dispatching.

Lemma dispatch_routes_registered_witness :
  (receiver (started false) = Some handlers
   /\ In ("/xfreq"%string, cb_xfreq) registrations)
  /\ dispatch stub_world (mkMessage "/xfreq" [VInt 40]) (mkEndpoint "10.0.0.1" 5000)
       (started false)
     = msg_xfreq (mkMessage "/xfreq" [VInt 40]) (mkEndpoint "10.0.0.1" 5000) (started false).
Proof.
  split; [split; [reflexivity | simpl; tauto]|].
  refine (proj2 (proj2 (dispatch_routes_registered stub_world
            (mkMessage "/xfreq" [VInt 40]) (mkEndpoint "10.0.0.1" 5000)
            (started false) eq_refl cb_xfreq _))).
  simpl. tauto.
Defined.

Lemma dispatch_falls_back_witness :
  (receiver (started false) = Some handlers
   /\ ~ In "/resets"%string registered_patterns)
  /\ dispatch stub_world (mkMessage "/resets" [VInt 1; VString "x"])
       (mkEndpoint "10.0.0.1" 5000) (started false)
     = mkOutcome (started false)
         [Print (Line_unhandled "/resets" (mkEndpoint "10.0.0.1" 5000) [VInt 1; VString "x"])]
         (inr tt).
Proof.
  assert (~ In "/resets"%string registered_patterns) as Hnot.
  { simpl. intros [H|[H|[H|[H|[H|[H|[]]]]]]]; discriminate H. }
  split; [split; [reflexivity | exact Hnot]|].
  exact (proj1 (proj2 (dispatch_falls_back stub_world
           (mkMessage "/resets" [VInt 1; VString "x"]) (mkEndpoint "10.0.0.1" 5000)
           (started false) eq_refl Hnot))).
Defined.

(** ** The runtime *)

Lemma step_datagram_continues (n : Node) (d : Datagram) :
  exists n' out, step n (Ev_datagram d) = Continue n' out.
Proof.
  unfold step. destruct (state n); try (by eexists _, _).
  destruct (on_datagram d (server n)) as [s' out]. by eexists _, _.
Qed.

(** No run of datagrams ends the process. *)
Lemma datagrams_never_fatal (ds : list Datagram) (n : Node) :
  exists n' out, run n (map Ev_datagram ds) = Continue n' out.
Proof.
  revert n. induction ds as [|d ds IH]; intros n; simpl.
  - by eexists _, _.
  - destruct (step_datagram_continues n d) as (n1 & out1 & ->).
    destruct (IH n1) as (n2 & out2 & ->). by eexists _, _.
Qed.

(** A bind failure at startup does. *)
Lemma bind_failure_is_fatal (n : Node) (w : World) :
  state n = Created ->
  can_bind w (recv_portnum (server n)) = false ->
  exists out, step n (Ev_listen w) = Fatal CannotListenError out.
Proof.
  intros Hst Hb. unfold step. rewrite Hst.
  rewrite (listen_bind_failure w (server n) Hb). by eexists.
Qed.

(** The script's two calls, [listen] and [run], lead to [Running]. *)
Lemma startup_reaches_running (v : bool) (w : World) :
  can_bind w PYTHON_NODE_RECV_PORT = true ->
  can_bind w 0 = true ->
  exists s out,
    run (main v) [Ev_listen w; Ev_run] = Continue (mkNode Running s) out
    /\ listening s /\ _ping_count s = 0 /\ send_portnum s = PYTHON_NODE_SEND_PORT.
Proof.
  intros H1 H2. unfold main. cbn [run step state server].
  pose proof (listen_outcome w (__init__ PYTHON_NODE_RECV_PORT PYTHON_NODE_SEND_PORT v) H1 H2)
    as Ho.
  rewrite Ho. cbn [result final effects state server].
  eexists _, _. split; [reflexivity|]. by repeat split.
Qed.

(** Whatever handler raises, the object it leaves is kept and the exception
    ends up as a console line. *)
Lemma on_datagram_catches (d : Datagram) (s : OscServer) (m : Message) (e : exn) :
  decode (payload d) = inr m ->
  result (dispatch (world d) m (sender d) s) = inl e ->
  on_datagram d s
  = (final (dispatch (world d) m (sender d) s),
     effects (dispatch (world d) m (sender d) s) ++ [Print (Line_handler_failed e)]).
Proof. intros Hdec He. unfold on_datagram. by rewrite Hdec, He. Qed.

Lemma stopped_step (n : Node) (ev : event) :
  state n = Stopped -> step n ev = Continue n [].
Proof. intros H. unfold step. rewrite H. by destruct ev. Qed.

Lemma stopped_run (evs : list event) (n : Node) :
  state n = Stopped -> run n evs = Continue n [].
Proof.
  intros H. induction evs as [|ev evs IH]; simpl; [done|].
  by rewrite (stopped_step n ev H), IH.
Qed.

Lemma existsb_is_stop_lines (b : bool) (l l' : console_line) :
  existsb is_stop ((if b then [Print l] else []) ++ [Print l']) = false.
Proof. by destruct b. Qed.

(** A handler that raises has not asked the reactor to stop: the one call
    of [stop] is the last statement of [msg_quit]. *)
Lemma raising_call_does_not_stop (w : World) (cb : callback) (m : Message) (peer : Endpoint)
    (s : OscServer) (e : exn) :
  result (call w cb m peer s) = inl e ->
  existsb is_stop (effects (call w cb m peer s)) = false.
Proof.
  destruct s as [vb rp sp re pc xf yf xp yp rc cp].
  destruct cb; simpl.
  - by destruct vb.
  - by destruct vb, re.
  - intros _. by destruct vb, cp.
  - intros _. destruct m as [addr [|x args]]; by destruct vb.
  - intros _. destruct m as [addr [|x args]]; by destruct vb.
  - intros _. destruct w as [[e'|[[x y] z]] mem cb]; by destruct vb, cp.
  - done.
  - done.
Qed.

Lemma raising_dispatch_does_not_stop (w : World) (m : Message) (peer : Endpoint)
    (s : OscServer) (e : exn) :
  result (dispatch w m peer s) = inl e ->
  existsb is_stop (effects (dispatch w m peer s)) = false.
Proof.
  destruct (receiver s) as [r|] eqn:Hr.
  - rewrite (dispatch_runs w m peer s r Hr). unfold matchCallbacks.
    destruct (callbacks r !! address m) as [cb|]; [|destruct (fallback r) as [cb|]].
    + rewrite call_all_single. apply raising_call_does_not_stop.
    + rewrite call_all_single. apply raising_call_does_not_stop.
    + done.
  - unfold dispatch, bind, attr. by rewrite Hr.
Qed.

(** The failure of a handler is caught: the node stays [Running] on the
    object the handler left, and the exception is a console line. *)
Lemma caught_stays_running (n : Node) (d : Datagram) (m : Message) (e : exn) :
  state n = Running ->
  decode (payload d) = inr m ->
  result (dispatch (world d) m (sender d) (server n)) = inl e ->
  step n (Ev_datagram d)
  = Continue (mkNode Running (final (dispatch (world d) m (sender d) (server n))))
      (effects (dispatch (world d) m (sender d) (server n))
       ++ [Print (Line_handler_failed e)]).
Proof.
  intros Hst Hdec He. unfold step. rewrite Hst.
  rewrite (on_datagram_catches d (server n) m e Hdec He).
  rewrite existsb_app, (raising_dispatch_does_not_stop _ _ _ _ _ He). reflexivity.
Qed.

(** A datagram that cannot be decoded is dropped: the node stays [Running]
    as it was. *)
Lemma malformed_stays_running (n : Node) (d : Datagram) :
  state n = Running ->
  decode (payload d) = inl Malformed ->
  step n (Ev_datagram d) = Continue n [Print Line_malformed].
Proof.
  intros Hst Hdec. unfold step, on_datagram. rewrite Hst, Hdec. cbn.
  destruct n as [st s]. simpl in Hst. by subst st.
Qed.

(** After a step that keeps the node, the run goes on with the datagrams
    that follow. *)
Lemma run_after_step (n n1 : Node) (d : Datagram) (ds : list Datagram) (out1 : list effect) :
  step n (Ev_datagram d) = Continue n1 out1 ->
  exists n' out,
    run n1 (map Ev_datagram ds) = Continue n' out
    /\ run n (map Ev_datagram (d :: ds)) = Continue n' (out1 ++ out).
Proof.
  intros Hstep. destruct (datagrams_never_fatal ds n1) as (n' & out & Hrun).
  exists n', out. split; [done|]. simpl. by rewrite Hstep, Hrun.
Qed.

(** C3.  No run of datagrams, whatever they contain and whatever their
    handlers do, ends the process.  When the node is running and the
    handler of a datagram raises, whichever handler and whichever exception
    it is, the failure is caught and logged, the node stays [Running] on the
    object the handler left, and the datagrams that follow are processed
    from there; a datagram that cannot be decoded is dropped and logged in
    the same way.  In particular, when a [/nextframe] datagram arrives while
    the sensor fetch raises [e]: the handler raises [e]; the failure is
    caught and logged; the node stays [Running] with its object unchanged
    and nothing is sent; and the datagrams that follow are processed exactly
    as if this one had not arrived. *)
Theorem handler_failure_is_contained (n : Node) (d : Datagram) (ds : list Datagram)
    (m : Message) (e : exn) :
  state n = Running ->
  receiver (server n) = Some handlers ->
  decode (payload d) = inr m ->
  address m = "/nextframe"%string ->
  sensor (world d) = inl e ->
  let log := (if verbose (server n) then [Print (Line_text "Generating next frame.")] else [])
             ++ [Print (Line_handler_failed e)] in
  (forall (n0 : Node) (ds0 : list Datagram),
      exists n' out, run n0 (map Ev_datagram ds0) = Continue n' out)
  /\ (forall (n0 : Node) (d0 : Datagram) (m0 : Message) (e0 : exn) (ds0 : list Datagram),
        state n0 = Running ->
        decode (payload d0) = inr m0 ->
        result (dispatch (world d0) m0 (sender d0) (server n0)) = inl e0 ->
        let o := dispatch (world d0) m0 (sender d0) (server n0) in
        let n1 := mkNode Running (final o) in
        let log0 := effects o ++ [Print (Line_handler_failed e0)] in
        step n0 (Ev_datagram d0) = Continue n1 log0
        /\ (forall d1 : Datagram,
              step n1 (Ev_datagram d1)
              = Continue (mkNode (if existsb is_stop (on_datagram d1 (final o)).2
                                  then Stopped else Running)
                            (on_datagram d1 (final o)).1)
                  (on_datagram d1 (final o)).2)
        /\ exists n' out,
             run n1 (map Ev_datagram ds0) = Continue n' out
             /\ run n0 (map Ev_datagram (d0 :: ds0)) = Continue n' (log0 ++ out))
  /\ (forall (n0 : Node) (d0 : Datagram) (ds0 : list Datagram),
        state n0 = Running ->
        decode (payload d0) = inl Malformed ->
        step n0 (Ev_datagram d0) = Continue n0 [Print Line_malformed]
        /\ exists n' out,
             run n0 (map Ev_datagram ds0) = Continue n' out
             /\ run n0 (map Ev_datagram (d0 :: ds0)) = Continue n' (Print Line_malformed :: out))
  /\ result (dispatch (world d) m (sender d) (server n)) = inl e
  /\ step n (Ev_datagram d) = Continue n log
  /\ sends log = []
  /\ exists n' out,
       run n (map Ev_datagram ds) = Continue n' out
       /\ run n (map Ev_datagram (d :: ds)) = Continue n' (log ++ out).
Proof.
  intros Hst Hr Hdec Haddr Hsens log.
  assert (dispatch (world d) m (sender d) (server n)
          = mkOutcome (server n)
              (if verbose (server n) then [Print (Line_text "Generating next frame.")] else [])
              (inl e)) as Hd.
  { assert (In (address m, cb_nextframe) registrations) as Hin
      by (rewrite Haddr; simpl; tauto).
    rewrite (dispatch_registered (world d) m (sender d) (server n) Hr _ Hin).
    simpl. by apply msg_nextframe_raises. }
  assert (step n (Ev_datagram d) = Continue n log) as Hstep.
  { unfold step, on_datagram. rewrite Hst, Hdec, Hd. simpl.
    fold log. unfold log at 1. rewrite existsb_is_stop_lines.
    destruct n as [st s]. simpl in *. by subst st. }
  split; [intros n0 ds0; apply datagrams_never_fatal|].
  split.
  { intros n0 d0 m0 e0 ds0 Hst0 Hdec0 He0 o n1 log0.
    pose proof (caught_stays_running n0 d0 m0 e0 Hst0 Hdec0 He0) as Hstep0.
    split; [exact Hstep0|]. split.
    - intros d1. unfold step. cbn [state server n1].
      by destruct (on_datagram d1 (final o)).
    - by apply run_after_step. }
  split.
  { intros n0 d0 ds0 Hst0 Hdec0.
    pose proof (malformed_stays_running n0 d0 Hst0 Hdec0) as Hstep0.
    split; [exact Hstep0|]. by apply (run_after_step n0 n0 d0 ds0 [Print Line_malformed]). }
  split; [by rewrite Hd|]. split; [done|].
  split; [unfold log; by rewrite sends_app, sends_print_line|].
  by apply run_after_step.
Qed.

Lemma handler_failure_is_contained_witness :
  let n := mkNode Running (started false) in
  let m := mkMessage "/nextframe" [] in
  let peer := mkEndpoint "192.168.1.20" 51000 in
  let d := mkDatagram (encode m) peer unreachable_world in
  let ping := mkDatagram (encode (mkMessage "/ping" [])) peer stub_world in
  let xfreq := mkDatagram (encode (mkMessage "/xfreq" [])) peer stub_world in
  let noise := mkDatagram [] peer stub_world in
  (state n = Running
   /\ receiver (server n) = Some handlers
   /\ decode (payload d) = inr m
   /\ address m = "/nextframe"%string
   /\ sensor (world d) = inl (SensorError "ConnectionError"))
  /\ step n (Ev_datagram d)
     = Continue n [Print (Line_handler_failed (SensorError "ConnectionError"))]
  /\ (exists n',
       run n (map Ev_datagram [d; ping])
       = Continue n' [Print (Line_handler_failed (SensorError "ConnectionError"));
                      Send (mkMessage "/pong" [VInt 1]) (mkEndpoint "192.168.1.20" 12000)])
  /\ run n (map Ev_datagram [xfreq; ping])
     = Continue (mkNode Running (set_ping_count 1 (started false)))
         [Print (Line_handler_failed IndexError);
          Send (mkMessage "/pong" [VInt 1]) (mkEndpoint "192.168.1.20" 12000)]
  /\ run n (map Ev_datagram [noise; ping])
     = Continue (mkNode Running (set_ping_count 1 (started false)))
         [Print Line_malformed;
          Send (mkMessage "/pong" [VInt 1]) (mkEndpoint "192.168.1.20" 12000)].
Proof.
  intros n m peer d ping xfreq noise.
  assert (decode (payload d) = inr m) as Hdec by (vm_compute; reflexivity).
  split; [by repeat split|].
  destruct (handler_failure_is_contained n d [ping] m (SensorError "ConnectionError")
              eq_refl eq_refl Hdec eq_refl eq_refl)
    as (_ & Hany & Hbad & _ & Hstep & _ & n' & out & Hrun & Hboth).
  split; [exact Hstep|]. split; [|split].
  - exists n'. rewrite Hboth. f_equal.
    assert (Continue n' out
            = Continue (mkNode Running (set_ping_count 1 (started false)))
                [Send (mkMessage "/pong" [VInt 1]) (mkEndpoint "192.168.1.20" 12000)]) as Heq
      by (rewrite <- Hrun; vm_compute; reflexivity).
    by inversion Heq.
  - assert (decode (payload xfreq) = inr (mkMessage "/xfreq" [])) as Hdec'
      by (vm_compute; reflexivity).
    assert (result (dispatch (world xfreq) (mkMessage "/xfreq" []) (sender xfreq) (server n))
            = inl IndexError) as Hraise by (vm_compute; reflexivity).
    destruct (Hany n xfreq (mkMessage "/xfreq" []) IndexError [ping] eq_refl Hdec' Hraise)
      as (_ & _ & n2 & out2 & Hrun2 & Hboth2).
    rewrite Hboth2.
    assert (Continue n2 out2
            = Continue (mkNode Running (set_ping_count 1 (started false)))
                [Send (mkMessage "/pong" [VInt 1]) (mkEndpoint "192.168.1.20" 12000)]) as Heq
      by (rewrite <- Hrun2; vm_compute; reflexivity).
    inversion Heq. subst n2 out2. vm_compute. reflexivity.
  - destruct (Hbad n noise [ping] eq_refl eq_refl) as (_ & n2 & out2 & Hrun2 & Hboth2).
    rewrite Hboth2.
    assert (Continue n2 out2
            = Continue (mkNode Running (set_ping_count 1 (started false)))
                [Send (mkMessage "/pong" [VInt 1]) (mkEndpoint "192.168.1.20" 12000)]) as Heq
      by (rewrite <- Hrun2; vm_compute; reflexivity).
    inversion Heq. subst n2 out2. reflexivity.
Defined.

(** C7.  When the node is running on a listening server and a [/quit]
    datagram arrives, the handler asks the reactor to stop and the node
    becomes [Stopped], its object unchanged; from there every event of every
    later run, datagrams included, leaves the node as it is, with no effect at
    all: nothing is decoded, dispatched, printed or sent. *)
Theorem quit_stops_the_node (n : Node) (d : Datagram) (m : Message) :
  state n = Running ->
  _reactor (server n) = Some TwistedReactor ->
  receiver (server n) = Some handlers ->
  decode (payload d) = inr m ->
  address m = "/quit"%string ->
  let n' := mkNode Stopped (server n) in
  step n (Ev_datagram d)
  = Continue n'
      ((if verbose (server n)
        then [Print (Line_text "Received quit request, shutting down.")] else [])
       ++ [ReactorStop])
  /\ (forall ev, step n' ev = Continue n' [])
  /\ (forall evs, run n' evs = Continue n' []).
Proof.
  intros Hst Hre Hr Hdec Haddr n'.
  split; [|split; intros; first [by apply stopped_step | by apply stopped_run]].
  assert (In (address m, cb_quit) registrations) as Hin by (rewrite Haddr; simpl; tauto).
  unfold step, on_datagram. rewrite Hst, Hdec.
  rewrite (dispatch_registered (world d) m (sender d) (server n) Hr _ Hin).
  subst n'. destruct n as [st [vb rp sp re pc xf yf xp yp rc cp]]. simpl in *.
  subst re. by destruct vb.
Qed.

Lemma quit_stops_the_node_witness :
  let n := mkNode Running (started true) in
  let m := mkMessage "/quit" [] in
  let peer := mkEndpoint "192.168.1.20" 51000 in
  let d := mkDatagram (encode m) peer stub_world in
  let ping := mkDatagram (encode (mkMessage "/ping" [])) peer stub_world in
  (state n = Running
   /\ _reactor (server n) = Some TwistedReactor
   /\ receiver (server n) = Some handlers
   /\ decode (payload d) = inr m
   /\ address m = "/quit"%string)
  /\ run n (map Ev_datagram [d; ping; ping])
     = Continue (mkNode Stopped (started true))
         [Print (Line_text "Received quit request, shutting down."); ReactorStop].
Proof.
  intros n m peer d ping.
  assert (decode (payload d) = inr m) as Hdec by (vm_compute; reflexivity).
  split; [by repeat split|].
  destruct (quit_stops_the_node n d m eq_refl eq_refl eq_refl Hdec eq_refl)
    as (Hstep & _ & Hrun).
  change (run n (map Ev_datagram [d; ping; ping]))
    with (match step n (Ev_datagram d) with
          | Continue n' out =>
              match run n' (map Ev_datagram [ping; ping]) with
              | Continue n'' out' => Continue n'' (out ++ out')
              | Fatal e out' => Fatal e (out ++ out')
              end
          | Fatal e out => Fatal e out
          end).
  rewrite Hstep, Hrun. vm_compute. reflexivity.
Defined.

(** ** The codec *)

Lemma Z_of_byte_range (b : byte) : 0 <= Z_of_byte b < 256.
Proof.
  unfold Z_of_byte. pose proof (Byte.to_N_bounded b). lia.
Qed.

Lemma Z_of_byte_of_Z (z : Z) : Z_of_byte (byte_of_Z z) = z mod 256.
Proof.
  unfold Z_of_byte, byte_of_Z.
  assert (0 <= z mod 256 < 256) as Hr by (apply Z.mod_pos_bound; lia).
  destruct (Byte.of_N (Z.to_N (z mod 256))) as [b|] eqn:Hb; simpl.
  - apply Byte.to_of_N in Hb. lia.
  - apply Byte.of_N_None_iff in Hb. lia.
Qed.

Lemma unpack_pack_u32 (w : Z) (rest : list byte) :
  0 <= w < 2 ^ 32 ->
  unpack_u32 (pack_u32 w ++ rest) = Some (w, rest).
Proof.
  intros Hw. unfold pack_u32, unpack_u32. simpl app. cbv iota beta.
  rewrite !Z_of_byte_of_Z. do 2 f_equal.
  change (2 ^ 32) with 4294967296 in Hw.
  change (2 ^ 24) with 16777216. change (2 ^ 16) with 65536. change (2 ^ 8) with 256.
  Z.div_mod_to_equations. lia.
Qed.

Lemma signed_unsigned32 (z : Z) :
  - 2 ^ 31 <= z < 2 ^ 31 -> 0 <= unsigned32 z < 2 ^ 32 /\ signed32 (unsigned32 z) = z.
Proof.
  intros Hz. unfold signed32, unsigned32.
  change (2 ^ 32) with 4294967296 in *. change (2 ^ 31) with 2147483648 in *.
  split; [apply Z.mod_pos_bound; lia|].
  destruct (Z.ltb_spec (z mod 4294967296) 2147483648); Z.div_mod_to_equations; lia.
Qed.

Lemma b32_fields (s : bool) (ex mx : Z) :
  0 <= ex < 256 -> 0 <= mx < 2 ^ 23 ->
  let w := sign_bit s + ex * 2 ^ 23 + mx in
  0 <= w < 2 ^ 32
  /\ (2 ^ 31 <=? w) = s
  /\ (w / 2 ^ 23) mod 256 = ex
  /\ w mod 2 ^ 23 = mx.
Proof.
  intros Hex Hmx w. subst w. unfold sign_bit.
  change (2 ^ 23) with 8388608 in *. change (2 ^ 31) with 2147483648.
  change (2 ^ 32) with 4294967296.
  destruct s.
  - split; [lia|]. split; [apply Z.leb_le; lia|].
    split; Z.div_mod_to_equations; lia.
  - split; [lia|]. split; [apply Z.leb_gt; lia|].
    split; Z.div_mod_to_equations; lia.
Qed.

Lemma b32_bits_roundtrip (x : spec_float) :
  valid_binary 24 128 x = true ->
  0 <= b32_bits x < 2 ^ 32 /\ b32_of_bits (b32_bits x) = x.
Proof.
  destruct x as [s|s| |s m e]; simpl valid_binary; intros Hv.
  - destruct s; split; vm_compute; try done; split; discriminate.
  - destruct s; split; vm_compute; try done; split; discriminate.
  - split; vm_compute; try done; split; discriminate.
  - unfold b32_bits.
    destruct (bounded_binary32 m e Hv) as [[Hm He]|[Hm He]].
    + rewrite (proj2 (Z.ltb_lt _ _) Hm).
      destruct (b32_fields s 0 (Z.pos m) ltac:(lia) ltac:(lia)) as (Hw & Hs & Hex & Hmx).
      rewrite Z.mul_0_l, Z.add_0_r in *.
      split; [done|]. unfold b32_of_bits. rewrite Hs, Hex, Hmx. simpl. by subst e.
    + rewrite (proj2 (Z.ltb_ge _ _) (proj1 Hm)).
      destruct (b32_fields s (e + 150) (Z.pos m - 2 ^ 23) ltac:(lia) ltac:(lia))
        as (Hw & Hs & Hex & Hmx).
      split; [done|]. unfold b32_of_bits. rewrite Hs, Hex, Hmx.
      destruct (Z.eqb_spec (e + 150) 0) as [H0|_]; [lia|].
      destruct (Z.eqb_spec (e + 150) 255) as [H0|_]; [lia|].
      replace (Z.pos m - 2 ^ 23 + 2 ^ 23) with (Z.pos m) by lia.
      by replace (e + 150 - 150) with e by lia.
Qed.

Arguments encode_string : simpl never.
Arguments decode_string : simpl never.
Arguments decode_arguments : simpl never.

Lemma split_nul_terminated (bs rest : list byte) :
  forallb (fun b => negb (Byte.eqb b NUL)) bs = true ->
  split_nul (bs ++ NUL :: rest) = Some (bs, rest).
Proof.
  induction bs as [|b bs IH]; simpl; [done|].
  rewrite andb_true_iff, negb_true_iff. intros [Hb Hbs].
  by rewrite Hb, (IH Hbs).
Qed.

Lemma skip_padding_replicate (n : nat) (rest : list byte) :
  skip_padding n (replicate n NUL ++ rest) = Some rest.
Proof. induction n as [|n IH]; simpl; done. Qed.

Lemma decode_encode_string (s : string) (rest : list byte) :
  nul_free s = true ->
  decode_string (encode_string s ++ rest) = Some (s, rest).
Proof.
  intros Hs. unfold decode_string, encode_string.
  rewrite <- app_assoc. simpl app.
  rewrite (split_nul_terminated _ _ Hs). simpl.
  rewrite skip_padding_replicate. simpl.
  by rewrite string_of_list_byte_of_string.
Qed.

Lemma decode_encode_blob (b rest : list byte) :
  Z.of_nat (length b) < 2 ^ 32 ->
  decode_blob (encode_blob b ++ rest) = Some (b, rest).
Proof.
  intros Hlen. unfold decode_blob, encode_blob.
  rewrite <- app_assoc, unpack_pack_u32 by lia. simpl.
  rewrite Nat2Z.id, <- app_assoc.
  destruct (Nat.ltb_spec (length (b ++ replicate (blob_padding (length b)) NUL ++ rest))
              (length b)) as [Hlt|_].
  - rewrite length_app in Hlt. lia.
  - rewrite drop_app_length, take_app_length, skip_padding_replicate. done.
Qed.

Lemma decode_encode_argument (v : value) (rest : list byte) :
  well_formed_value v = true ->
  decode_argument (type_tag v) (encode_argument v ++ rest) = Some (v, rest).
Proof.
  destruct v as [z|f|s|b]; simpl well_formed_value; intros Hv;
    unfold decode_argument; simpl type_tag; simpl encode_argument; cbv iota beta.
  - apply andb_true_iff in Hv as [H1%Z.leb_le H2%Z.ltb_lt].
    destruct (signed_unsigned32 z ltac:(lia)) as [Hr Hs].
    change (Byte.eqb "i" "i") with true. cbv iota.
    rewrite (unpack_pack_u32 _ rest Hr). simpl. by rewrite Hs.
  - apply spec_float_eqb_eq in Hv as Heq.
    destruct (b32_bits_roundtrip _ (np_float32_valid f)) as [Hr Hb].
    change (Byte.eqb "f" "i") with false. change (Byte.eqb "f" "f") with true. cbv iota.
    rewrite (unpack_pack_u32 _ rest Hr). simpl. by rewrite Hb, Heq.
  - change (Byte.eqb "s" "i") with false. change (Byte.eqb "s" "f") with false.
    change (Byte.eqb "s" "s") with true. cbv iota.
    by rewrite (decode_encode_string s rest Hv).
  - apply Z.ltb_lt in Hv.
    change (Byte.eqb "b" "i") with false. change (Byte.eqb "b" "f") with false.
    change (Byte.eqb "b" "s") with false. change (Byte.eqb "b" "b") with true. cbv iota.
    by rewrite (decode_encode_blob b rest Hv).
Qed.

Lemma decode_encode_arguments (args : list value) (rest : list byte) :
  forallb well_formed_value args = true ->
  decode_arguments (map type_tag args) (concat (map encode_argument args) ++ rest)
  = Some args.
Proof.
  induction args as [|v args IH]; simpl; [done|].
  rewrite andb_true_iff. intros [Hv Hargs].
  unfold decode_arguments. fold decode_arguments. simpl map.
  rewrite <- app_assoc, (decode_encode_argument v _ Hv). simpl.
  by rewrite (IH Hargs).
Qed.

Lemma type_tags_nul_free (args : list value) :
  forallb (fun b => negb (Byte.eqb b NUL)) (map type_tag args) = true.
Proof. induction args as [|[z|f|s|b] args IH]; simpl; done. Qed.

Lemma decode_encode (m : Message) :
  well_formed m = true -> decode (encode m) = inr m.
Proof.
  destruct m as [addr args]. unfold well_formed, decode, encode. simpl address.
  simpl arguments. rewrite andb_true_iff. intros [Haddr Hargs].
  rewrite (decode_encode_string addr _ Haddr). cbn [mbind option_bind].
  rewrite decode_encode_string.
  - cbn [mbind option_bind]. rewrite list_byte_of_string_of_list_byte.
    change (Byte.eqb "," ",") with true. cbv iota.
    rewrite <- (app_nil_r (concat _)), (decode_encode_arguments args [] Hargs). done.
  - unfold nul_free. rewrite list_byte_of_string_of_list_byte. simpl.
    apply type_tags_nul_free.
Qed.

(** Every item of a datagram, and so the datagram, is a whole number of
    4-byte words. *)
Lemma aligned_add (a b : nat) :
  (a mod 4 = 0 -> b mod 4 = 0 -> (a + b) mod 4 = 0)%nat.
Proof.
  intros Ha Hb. rewrite Nat.Div0.add_mod, Ha, Hb. reflexivity.
Qed.

Lemma padded_aligned (n k : nat) :
  ((n + k) mod 4 = 0 -> forall bs : list byte, length bs = n ->
   length (bs ++ replicate k NUL) mod 4 = 0)%nat.
Proof. intros H bs Hbs. by rewrite length_app, length_replicate, Hbs. Qed.

Lemma encode_string_aligned (s : string) : (length (encode_string s) mod 4 = 0)%nat.
Proof.
  unfold encode_string.
  change (NUL :: replicate ?k NUL) with (replicate (S k) NUL).
  apply (padded_aligned (length (list_byte_of_string s))); [|done].
  pose proof (Nat.mod_upper_bound (length (list_byte_of_string s)) 4 ltac:(lia)) as Hlt.
  pose proof (Nat.div_mod_eq (length (list_byte_of_string s)) 4) as Hdm.
  set (q := (length (list_byte_of_string s) / 4)%nat) in *.
  set (r := (length (list_byte_of_string s) mod 4)%nat) in *.
  replace (length (list_byte_of_string s) + S (3 - r))%nat with ((q + 1) * 4)%nat by lia.
  apply Nat.Div0.mod_mul.
Qed.

Lemma encode_blob_aligned (b : list byte) : (length (encode_blob b) mod 4 = 0)%nat.
Proof.
  unfold encode_blob, blob_padding. rewrite length_app.
  apply aligned_add; [reflexivity|].
  apply (padded_aligned (length b)); [|done].
  pose proof (Nat.mod_upper_bound (length b) 4 ltac:(lia)) as Hlt.
  pose proof (Nat.div_mod_eq (length b) 4) as Hdm.
  set (q := (length b / 4)%nat) in *. set (r := (length b mod 4)%nat) in *.
  destruct (Nat.eq_dec r 0%nat) as [Hr|Hr].
  - rewrite Hr. change ((4 - 0) mod 4)%nat with 0%nat.
    replace (length b + 0)%nat with (q * 4)%nat by lia. apply Nat.Div0.mod_mul.
  - rewrite (Nat.mod_small (4 - r) 4) by lia.
    replace (length b + (4 - r))%nat with ((q + 1) * 4)%nat by lia.
    apply Nat.Div0.mod_mul.
Qed.

Lemma encode_aligned (m : Message) : (length (encode m) mod 4 = 0)%nat.
Proof.
  unfold encode. rewrite !length_app.
  apply aligned_add; [apply encode_string_aligned|].
  apply aligned_add; [apply encode_string_aligned|].
  induction (arguments m) as [|v args IH]; [done|].
  cbn [map concat]. rewrite length_app. apply aligned_add; [|exact IH].
  destruct v as [z|f|s|b]; cbn [encode_argument].
  - reflexivity.
  - reflexivity.
  - apply encode_string_aligned.
  - apply encode_blob_aligned.
Qed.

(** C8.  For every well-formed message (no NUL inside the address or a
    string argument, integers in the int32 range, floats that are binary32
    numbers, blobs shorter than 2^32 bytes), with any mix of arguments,
    [encode] yields a datagram of whole 4-byte words, and decoding that
    datagram yields the message again.  [encode] is a total function: it has
    no failure path. *)
Theorem decode_encode_roundtrip (m : Message) :
  well_formed m = true ->
  (length (encode m) mod 4 = 0)%nat /\ decode (encode m) = inr m.
Proof. intros Hm. split; [apply encode_aligned | by apply decode_encode]. Qed.

Lemma decode_encode_roundtrip_witness :
  let m := mkMessage "/trajectory"
             [VInt 10; VInt (-2); VFloat (float_of_Z 2); VString "accY";
              VFloat (S754_infinity true); VBlob ["a"%byte; x00; "c"%byte]] in
  well_formed m = true /\ decode (encode m) = inr m.
Proof.
  intros m. split; [vm_compute; reflexivity|].
  apply (decode_encode_roundtrip m). vm_compute. reflexivity.
Defined.

(** ** Replies on the wire *)

(** The reply of [/nextframe] survives the codec, whatever the samples. *)
Lemma trajectory_reply_on_the_wire (accY accZ : spec_float) :
  let reply := mkMessage "/trajectory"
                 (VInt 10 :: VInt 2
                  :: replicate 10 (VFloat (py_float (np_float32 accY)))
                  ++ replicate 10 (VFloat (py_float (np_float32 accZ)))) in
  decode (encode reply) = inr reply.
Proof.
  intros reply. apply decode_encode. subst reply. unfold well_formed.
  cbn [address arguments forallb app replicate well_formed_value].
  rewrite !sample_is_float32. reflexivity.
Qed.

(** The reply of [/ping] survives the codec as long as the counter fits an
    int32. *)
Lemma pong_reply_on_the_wire (n : Z) :
  - 2 ^ 31 <= n < 2 ^ 31 ->
  decode (encode (mkMessage "/pong" [VInt n])) = inr (mkMessage "/pong" [VInt n]).
Proof.
  intros Hn. apply decode_encode. unfold well_formed.
  cbn [address arguments forallb well_formed_value].
  destruct (Z.leb_spec (- 2 ^ 31) n); [|lia]. destruct (Z.ltb_spec n (2 ^ 31)); [|lia].
  reflexivity.
Qed.

(** ** Pings among other datagrams *)

Lemma pongs_app (a b : list effect) : pongs (a ++ b) = pongs a ++ pongs b.
Proof. unfold pongs. by rewrite sends_app, omap_app. Qed.

Lemma counting_from_lookup (k i : nat) (c : Z) :
  (i < k)%nat -> counting_from c k !! i = Some [VInt (c + Z.of_nat i + 1)].
Proof.
  revert i c. induction k as [|k IH]; intros i c Hi; [lia|].
  destruct i as [|i]; simpl.
  - by rewrite Z.add_0_r.
  - rewrite IH by lia. do 3 f_equal. lia.
Qed.

Lemma counting_from_length (k : nat) (c : Z) : length (counting_from c k) = k.
Proof. revert c. induction k as [|k IH]; intros c; simpl; [done|]. by rewrite IH. Qed.

(** One datagram on a listening server: the server keeps listening, and
    either no [/pong] is handed over and the counter stays, or one [/pong]
    is handed over with the counter's next value, which the counter then
    has. *)
Lemma on_datagram_pongs (d : Datagram) (s : OscServer) :
  listening s ->
  listening (on_datagram d s).1
  /\ ((pongs (on_datagram d s).2 = []
       /\ _ping_count (on_datagram d s).1 = _ping_count s)
      \/ (pongs (on_datagram d s).2 = [[VInt (_ping_count s + 1)]]
          /\ _ping_count (on_datagram d s).1 = _ping_count s + 1)).
Proof.
  intros Hl. unfold on_datagram.
  destruct (decode (payload d)) as [[]|m]; [by split; [|left]|].
  pose proof Hl as (Hre & Hr & Hcp).
  destruct (in_dec String.string_dec (address m) registered_patterns) as [Hin|Hnot].
  - assert (exists cb, In (address m, cb) registrations) as [cb Hcb].
    { simpl in Hin. destruct Hin as [H|[H|[H|[H|[H|[H|[]]]]]]]; rewrite <- H;
        eexists; simpl; eauto 10. }
    rewrite (dispatch_registered (world d) m (sender d) s Hr cb Hcb).
    split; [by apply call_keeps_listening|].
    destruct s as [vb rp sp re pc xf yf xp yp rc cp]. simpl in Hre, Hr, Hcp.
    subst re rc cp. clear Hl Hcb Hin.
    destruct cb; simpl.
    + left. by destruct vb.
    + left. by destruct vb.
    + right. destruct vb; simpl; by split_ifs.
    + left. destruct m as [addr [|x args]]; by destruct vb.
    + left. destruct m as [addr [|x args]]; by destruct vb.
    + left. destruct (world d) as [[e|[[x y] z]] mem cb]; destruct vb; simpl; by split_ifs.
    + by left.
    + by left.
  - destruct (dispatch_unregistered (world d) m (sender d) s Hr Hnot) as [_ ->].
    by split; [|left].
Qed.

(** Whatever datagrams arrive at a running node with a listening server,
    from whatever senders and in whatever order, the [/pong] replies handed
    to the client protocol carry the values that follow the counter, one
    after the other, and the counter ends at the last of them. *)
Lemma pongs_count_up_in_every_run (ds : list Datagram) (n : Node) :
  state n = Running \/ state n = Stopped ->
  listening (server n) ->
  exists n' out,
    run n (map Ev_datagram ds) = Continue n' out
    /\ listening (server n')
    /\ _ping_count (server n') = _ping_count (server n) + Z.of_nat (length (pongs out))
    /\ pongs out = counting_from (_ping_count (server n)) (length (pongs out)).
Proof.
  revert n. induction ds as [|d ds IH]; intros n Hst Hl.
  - exists n, []. simpl. split; [done|]. split; [done|]. split; [lia | done].
  - destruct Hst as [Hst|Hst].
    + simpl. unfold step. rewrite Hst.
      destruct (on_datagram_pongs d (server n) Hl) as (Hl1 & Hp).
      destruct (on_datagram d (server n)) as [s1 out1]. simpl in Hl1, Hp.
      set (n1 := mkNode (if existsb is_stop out1 then Stopped else Running) s1).
      destruct (IH n1) as (n2 & out2 & Hrun & Hl2 & Hcnt & Hpongs).
      { subst n1. simpl. destruct (existsb is_stop out1); auto. }
      { done. }
      rewrite Hrun. exists n2, (out1 ++ out2). simpl in Hcnt, Hpongs.
      split; [done|]. split; [done|].
      rewrite pongs_app, length_app.
      destruct Hp as [[Hp Hc]|[Hp Hc]]; rewrite Hp, Hc in *; simpl.
      * split; [lia | done].
      * split; [lia|]. by rewrite <- Hpongs.
    + rewrite (stopped_run _ n Hst). exists n, []. simpl.
      split; [done|]. split; [done|]. split; [lia | done].
Qed.

(** * Further properties of the methods *)

(** ** [listen] *)

(** X1.  When both ports can be bound, [listen] returns normally; it asks for
    the receive port first and for an ephemeral port second, printing its two
    lines only when verbose; afterwards the reactor, the table with the six
    callbacks and the fallback, and the client protocol are in place, whatever
    was there before, and the ports, the verbosity, the counter and the four
    parameters are as they were. *)
Theorem listen_sets_up_the_server (w : World) (s : OscServer) :
  can_bind w (recv_portnum s) = true ->
  can_bind w 0 = true ->
  let o := listen w TwistedReactor s in
  result o = inr tt
  /\ effects o
     = ListenUDP (recv_portnum s)
       :: (if verbose s then [Print (Line_listening (recv_portnum s))] else [])
       ++ ListenUDP 0 :: (if verbose s then [Print Line_ready] else [])
  /\ listening (final o)
  /\ (verbose (final o), recv_portnum (final o), send_portnum (final o))
     = (verbose s, recv_portnum s, send_portnum s)
  /\ (_ping_count (final o), _xfreq (final o), _yfreq (final o),
      _xphase (final o), _yphase (final o))
     = (_ping_count s, _xfreq s, _yfreq s, _xphase s, _yphase s).
Proof.
  intros H1 H2 o. subst o. rewrite (listen_outcome w s H1 H2). by repeat split.
Qed.

Lemma listen_sets_up_the_server_witness :
  (can_bind stub_world (recv_portnum (server (main true))) = true
   /\ can_bind stub_world 0 = true)
  /\ effects (listen stub_world TwistedReactor (server (main true)))
     = [ListenUDP 12001; Print (Line_listening 12001); ListenUDP 0; Print Line_ready].
Proof.
  split; [by split|].
  exact (proj1 (proj2 (listen_sets_up_the_server stub_world (server (main true))
                         eq_refl eq_refl))).
Defined.

(** X2.  When the receive port cannot be bound, [listen] raises
    [CannotListenError] right after asking for it: by then it has stored the
    reactor and a new, empty receiver, and nothing else has happened: no line
    is printed, no client protocol is created, no callback is registered. *)
Theorem listen_receive_port_refused (w : World) (s : OscServer) :
  can_bind w (recv_portnum s) = false ->
  listen w TwistedReactor s
  = mkOutcome (set_receiver (Some Receiver_new) (set_reactor (Some TwistedReactor) s))
      [ListenUDP (recv_portnum s)]
      (inl CannotListenError).
Proof.
  destruct s as [vb rp sp re pc xf yf xp yp rc cp]. cbn [recv_portnum]. intros H1.
  etransitivity.
  - unfold listen. do 3 py_step.
    eapply bind_raised. eapply listenUDP_refused. eassumption.
  - reflexivity.
Qed.

Lemma listen_receive_port_refused_witness :
  can_bind recv_port_taken_world (recv_portnum (server (main true))) = false
  /\ (let o := listen recv_port_taken_world TwistedReactor (server (main true)) in
      result o = inl CannotListenError
      /\ _client_protocol (final o) = None
      /\ receiver (final o) = Some Receiver_new).
Proof.
  split; [reflexivity|].
  rewrite (listen_receive_port_refused recv_port_taken_world (server (main true)) eq_refl).
  by repeat split.
Defined.

(** X3.  When the receive port is bound but no port is left for the sending
    socket, [listen] raises [CannotListenError] after the receive port has
    been taken and its line printed: the client protocol object exists, but
    the receiver is still as line 75 created it: none of the six callbacks
    is registered and [msg_fallback] is not installed. *)
Theorem listen_send_socket_refused (w : World) (s : OscServer) :
  can_bind w (recv_portnum s) = true ->
  can_bind w 0 = false ->
  listen w TwistedReactor s
  = mkOutcome
      (set_client_protocol (Some DatagramClientProtocol)
         (set_receiver (Some Receiver_new) (set_reactor (Some TwistedReactor) s)))
      (ListenUDP (recv_portnum s)
       :: (if verbose s then [Print (Line_listening (recv_portnum s))] else [])
       ++ [ListenUDP 0])
      (inl CannotListenError).
Proof.
  destruct s as [vb rp sp re pc xf yf xp yp rc cp]. cbn [recv_portnum verbose].
  intros H1 H2.
  destruct vb.
  - etransitivity.
    + unfold listen. do 7 py_step.
      eapply bind_raised. eapply listenUDP_refused. eassumption.
    + reflexivity.
  - etransitivity.
    + unfold listen. do 7 py_step.
      eapply bind_raised. eapply listenUDP_refused. eassumption.
    + reflexivity.
Qed.

Lemma listen_send_socket_refused_witness :
  (can_bind no_ephemeral_port_world (recv_portnum (server (main false))) = true
   /\ can_bind no_ephemeral_port_world 0 = false)
  /\ (let o := listen no_ephemeral_port_world TwistedReactor (server (main false)) in
      result o = inl CannotListenError
      /\ effects o = [ListenUDP 12001; ListenUDP 0]
      /\ receiver (final o) = Some Receiver_new).
Proof.
  split; [by split|].
  rewrite (listen_send_socket_refused no_ephemeral_port_world (server (main false))
             eq_refl eq_refl).
  by repeat split.
Defined.

(** ** What handlers raise, and what they leave behind *)

(** X4.  When a handler raises on a listening server, and what.  [/xfreq]
    and [/yfreq] raise [IndexError] exactly when the message has no
    argument.  [/nextframe] raises exactly when reading the three samples of
    the sensor as numbers raises, with the same exception.  [/ping] raises
    [OverflowError] exactly when the incremented counter does not fit the
    int32 argument of [/pong].  [/reset], [/quit] and the fallback
    return. *)
Theorem handlers_raise_exactly (w : World) (cb : callback) (m : Message) (peer : Endpoint)
    (s : OscServer) :
  listening s ->
  result (call w cb m peer s) = raised_by w cb m s.
Proof.
  intros (Hre & Hr & Hcp). destruct cb; cbn [call raised_by].
  - by rewrite msg_reset_outcome.
  - destruct s as [vb rp sp re pc xf yf xp yp rc cp]. simpl in Hre. subst re.
    by destruct vb.
  - by rewrite (msg_ping_outcome m peer s _ Hcp).
  - destruct s as [vb rp sp re pc xf yf xp yp rc cp].
    destruct m as [addr [|x args]]; by destruct vb.
  - destruct s as [vb rp sp re pc xf yf xp yp rc cp].
    destruct m as [addr [|x args]]; by destruct vb.
  - destruct (sensor w) as [e|[[x y] z]] eqn:Hs.
    + by rewrite (msg_nextframe_raises w m peer s e Hs).
    + by rewrite (msg_nextframe_outcome w m peer s x y z _ Hs Hcp).
  - done.
  - done.
Qed.

Lemma handlers_raise_exactly_witness :
  (listening (started false)
   /\ listening (set_ping_count 2147483647 (started false)))
  /\ result (call unreachable_world cb_nextframe (mkMessage "/nextframe" [])
               (mkEndpoint "10.0.0.1" 5000) (started false))
     = inl (SensorError "ConnectionError")
  /\ result (call stub_world cb_yfreq (mkMessage "/yfreq" [])
               (mkEndpoint "10.0.0.1" 5000) (started false))
     = inl IndexError
  /\ result (call stub_world cb_ping (mkMessage "/ping" [])
               (mkEndpoint "10.0.0.1" 5000) (started false))
     = inr tt
  /\ result (call stub_world cb_ping (mkMessage "/ping" [])
               (mkEndpoint "10.0.0.1" 5000) (set_ping_count 2147483647 (started false)))
     = inl OverflowError.
Proof.
  assert (listening (started false)) as Hl by (by repeat split).
  assert (listening (set_ping_count 2147483647 (started false))) as Hl' by (by repeat split).
  split; [by split|]. split; [|split; [|split]].
  - exact (handlers_raise_exactly unreachable_world cb_nextframe (mkMessage "/nextframe" [])
             (mkEndpoint "10.0.0.1" 5000) (started false) Hl).
  - exact (handlers_raise_exactly stub_world cb_yfreq (mkMessage "/yfreq" [])
             (mkEndpoint "10.0.0.1" 5000) (started false) Hl).
  - exact (handlers_raise_exactly stub_world cb_ping (mkMessage "/ping" [])
             (mkEndpoint "10.0.0.1" 5000) (started false) Hl).
  - exact (handlers_raise_exactly stub_world cb_ping (mkMessage "/ping" [])
             (mkEndpoint "10.0.0.1" 5000) (set_ping_count 2147483647 (started false)) Hl').
Defined.

(** X5.  What a handler that raises on a listening server leaves behind.  A
    handler other than [/ping] has changed nothing: the object is exactly as
    before, nothing was handed to the client protocol and the reactor was
    not asked to stop.  A [/ping] that raises does so with [OverflowError]:
    the counter stays incremented, its value does not fit the int32 argument
    of [/pong], and the reply that was handed over is one that cannot be
    sent. *)
Theorem failed_handler_aftermath (w : World) (cb : callback) (m : Message)
    (peer : Endpoint) (s : OscServer) (e : exn) :
  listening s ->
  result (call w cb m peer s) = inl e ->
  let o := call w cb m peer s in
  (cb <> cb_ping /\ final o = s /\ outward (effects o) = [])
  \/ (cb = cb_ping
      /\ e = OverflowError
      /\ final o = set_ping_count (_ping_count s + 1) s
      /\ outward (effects o)
         = [Send (mkMessage "/pong" [VInt (_ping_count s + 1)])
              (mkEndpoint (host peer) (send_portnum s))]
      /\ sendable (mkMessage "/pong" [VInt (_ping_count s + 1)]) = false).
Proof.
  intros (Hre & Hr & Hcp) Hres o. subst o. destruct cb; cbn [call] in *.
  - rewrite msg_reset_outcome in Hres. done.
  - left. destruct s as [vb rp sp re pc xf yf xp yp rc cp]. simpl in Hre. subst re.
    by destruct vb.
  - right. rewrite (msg_ping_outcome m peer s _ Hcp) in Hres |- *.
    cbn [final effects result] in *. rewrite sendable_pong.
    destruct (packable (VInt (_ping_count s + 1))); [done|].
    injection Hres as <-. repeat split. by destruct (verbose s).
  - left. destruct s as [vb rp sp re pc xf yf xp yp rc cp].
    destruct m as [addr [|x args]]; by destruct vb.
  - left. destruct s as [vb rp sp re pc xf yf xp yp rc cp].
    destruct m as [addr [|x args]]; by destruct vb.
  - left. destruct (sensor w) as [e'|[[x y] z]] eqn:Hs.
    + rewrite (msg_nextframe_raises w m peer s e' Hs). by destruct (verbose s).
    + by rewrite (msg_nextframe_outcome w m peer s x y z _ Hs Hcp) in Hres.
  - done.
  - done.
Qed.

Lemma failed_handler_aftermath_witness :
  let o := call stub_world cb_xfreq (mkMessage "/xfreq" [])
             (mkEndpoint "10.0.0.1" 5000) (started true) in
  let s := set_ping_count 2147483647 (started true) in
  let o' := call stub_world cb_ping (mkMessage "/ping" []) (mkEndpoint "10.0.0.1" 5000) s in
  ((listening (started true) /\ result o = inl IndexError)
   /\ (listening s /\ result o' = inl OverflowError))
  /\ (final o = started true /\ effects o = [])
  /\ (_ping_count (final o') = 2147483648
      /\ sendable (mkMessage "/pong" [VInt 2147483648]) = false).
Proof.
  intros o s o'.
  assert (listening (started true)) as Hl by (by repeat split).
  assert (listening s) as Hl' by (by repeat split).
  split; [by repeat split|]. split.
  - destruct (failed_handler_aftermath stub_world cb_xfreq (mkMessage "/xfreq" [])
                (mkEndpoint "10.0.0.1" 5000) (started true) IndexError Hl eq_refl)
      as [(_ & Hf & _)|(Hcb & _)]; [|discriminate Hcb].
    split; [exact Hf | reflexivity].
  - destruct (failed_handler_aftermath stub_world cb_ping (mkMessage "/ping" [])
                (mkEndpoint "10.0.0.1" 5000) s OverflowError Hl' eq_refl)
      as [(Hcb & _)|(_ & _ & Hf & _ & Hno)]; [by destruct Hcb|].
    split; [|exact Hno]. unfold o'. rewrite Hf. vm_compute. reflexivity.
Defined.

(** X6.  Before [listen] has run (no reactor, no client protocol), the three
    handlers that need them raise [AttributeError]: [/quit] without any
    change; [/nextframe] only after the sensor fetch, whose own exception
    comes first; and [/ping] only after it has incremented the counter, which
    stays incremented although no reply is sent. *)
Theorem handlers_before_listen (w : World) (m : Message) (peer : Endpoint) (s : OscServer) :
  _reactor s = None ->
  _client_protocol s = None ->
  msg_quit m peer s
  = mkOutcome s
      (if verbose s then [Print (Line_text "Received quit request, shutting down.")] else [])
      (inl AttributeError)
  /\ msg_ping m peer s
     = mkOutcome (set_ping_count (_ping_count s + 1) s)
         (if verbose s then [Print (Line_text "Received ping request.")] else [])
         (inl AttributeError)
  /\ msg_nextframe w m peer s
     = mkOutcome s
         (if verbose s then [Print (Line_text "Generating next frame.")] else [])
         (inl match sensor w with
              | inl e => e
              | inr _ => AttributeError
              end).
Proof.
  destruct s as [vb rp sp re pc xf yf xp yp rc cp]. simpl. intros -> ->.
  destruct w as [[e|[[x y] z]] mem cb]; by destruct vb.
Qed.

Lemma handlers_before_listen_witness :
  let s := __init__ 12001 12000 false in
  (_reactor s = None /\ _client_protocol s = None)
  /\ _ping_count (final (msg_ping (mkMessage "/ping" []) (mkEndpoint "10.0.0.1" 5000) s)) = 1
  /\ effects (msg_ping (mkMessage "/ping" []) (mkEndpoint "10.0.0.1" 5000) s) = [].
Proof.
  intros s. split; [by split|].
  destruct (handlers_before_listen stub_world (mkMessage "/ping" [])
              (mkEndpoint "10.0.0.1" 5000) s eq_refl eq_refl) as (_ & Hping & _).
  rewrite Hping. by split.
Defined.

(** ** Invariants of the object over any history *)

Lemma call_keeps_configuration (w : World) (cb : callback) (m : Message) (peer : Endpoint)
    (s : OscServer) :
  let s' := final (call w cb m peer s) in
  verbose s' = verbose s /\ recv_portnum s' = recv_portnum s
  /\ send_portnum s' = send_portnum s /\ _reactor s' = _reactor s
  /\ receiver s' = receiver s /\ _client_protocol s' = _client_protocol s.
Proof.
  destruct s as [vb rp sp re pc xf yf xp yp rc cp].
  destruct cb; simpl.
  - by destruct vb.
  - by destruct vb, re.
  - by destruct vb, cp.
  - destruct m as [addr [|x args]]; by destruct vb.
  - destruct m as [addr [|x args]]; by destruct vb.
  - destruct w as [[e|[[x y] z]] mem cb]; by destruct vb, cp.
  - done.
  - done.
Qed.

(** X7.  No handler, however often and in whatever order handlers run and
    whether they return or raise, changes the verbosity, the two port
    numbers, the reactor, the handler table or the client protocol of the
    object. *)
Theorem handlers_keep_configuration (cs : list Invocation) (s : OscServer) :
  let s' := replay cs s in
  verbose s' = verbose s /\ recv_portnum s' = recv_portnum s
  /\ send_portnum s' = send_portnum s /\ _reactor s' = _reactor s
  /\ receiver s' = receiver s /\ _client_protocol s' = _client_protocol s.
Proof.
  revert s. induction cs as [|c cs IH]; intros s; simpl; [done|].
  destruct (IH (final (invoke c s))) as (H1 & H2 & H3 & H4 & H5 & H6).
  destruct (call_keeps_configuration (inv_world c) (inv_callback c) (inv_message c)
              (inv_peer c) s) as (G1 & G2 & G3 & G4 & G5 & G6).
  unfold invoke in *. simpl in *.
  by rewrite H1, H2, H3, H4, H5, H6.
Qed.

Lemma call_keeps_phases (w : World) (cb : callback) (m : Message) (peer : Endpoint)
    (s : OscServer) :
  _xphase s = VFloat (S754_zero false) ->
  _yphase s = VFloat (S754_zero false) ->
  _xphase (final (call w cb m peer s)) = VFloat (S754_zero false)
  /\ _yphase (final (call w cb m peer s)) = VFloat (S754_zero false).
Proof.
  destruct s as [vb rp sp re pc xf yf xp yp rc cp]. simpl. intros -> ->.
  destruct cb; simpl.
  - by destruct vb.
  - by destruct vb, re.
  - by destruct vb, cp.
  - destruct m as [addr [|x args]]; by destruct vb.
  - destruct m as [addr [|x args]]; by destruct vb.
  - destruct w as [[e|[[x y] z]] mem cb]; by destruct vb, cp.
  - done.
  - done.
Qed.

(** X8.  The two phases are 0.0 in a newly constructed object and stay 0.0
    over every history of handler invocations: no handler advances them
    ([/nextframe] in particular does not). *)
Theorem phases_stay_zero (cs : list Invocation) (recv_port send_port : Z) (v : bool) :
  let s := replay cs (__init__ recv_port send_port v) in
  _xphase s = VFloat (S754_zero false) /\ _yphase s = VFloat (S754_zero false).
Proof.
  assert (forall cs s, _xphase s = VFloat (S754_zero false) ->
                       _yphase s = VFloat (S754_zero false) ->
                       _xphase (replay cs s) = VFloat (S754_zero false)
                       /\ _yphase (replay cs s) = VFloat (S754_zero false)) as Hinv.
  { clear cs. intros cs. induction cs as [|c cs IH]; intros s Hx Hy; simpl; [done|].
    destruct (call_keeps_phases (inv_world c) (inv_callback c) (inv_message c)
                (inv_peer c) s Hx Hy) as [Hx' Hy'].
    by apply IH. }
  by apply Hinv.
Qed.

Lemma call_ping_count (w : World) (cb : callback) (m : Message) (peer : Endpoint)
    (s : OscServer) :
  _ping_count (final (call w cb m peer s))
  = _ping_count s + (if is_ping cb then 1 else 0).
Proof.
  destruct s as [vb rp sp re pc xf yf xp yp rc cp].
  destruct cb; simpl.
  - destruct vb; simpl; lia.
  - destruct vb, re; simpl; lia.
  - by destruct vb, cp.
  - destruct m as [addr [|x args]]; destruct vb; simpl; lia.
  - destruct m as [addr [|x args]]; destruct vb; simpl; lia.
  - destruct w as [[e|[[x y] z]] mem cb]; destruct vb, cp; simpl; lia.
  - simpl. lia.
  - simpl. lia.
Qed.

(** X9.  Over every history of handler invocations the counter grows by
    exactly the number of [/ping] invocations in it, whatever else was
    invoked in between and whether or not the pings could be answered; from a
    newly constructed object it is that number. *)
Theorem ping_count_counts_pings (cs : list Invocation) (s : OscServer)
    (recv_port send_port : Z) (v : bool) :
  _ping_count (replay cs s) = _ping_count s + Z.of_nat (pings_in cs)
  /\ _ping_count (replay cs (__init__ recv_port send_port v)) = Z.of_nat (pings_in cs).
Proof.
  assert (forall cs s, _ping_count (replay cs s) = _ping_count s + Z.of_nat (pings_in cs))
    as Hinv.
  { clear cs s. intros cs. induction cs as [|c cs IH]; intros s; simpl.
    - unfold pings_in. simpl. lia.
    - rewrite IH. unfold invoke. rewrite call_ping_count.
      unfold pings_in. simpl. destruct (is_ping (inv_callback c)); simpl; lia. }
  split; [apply Hinv|]. rewrite Hinv. simpl. lia.
Qed.

(** ** What handlers send, stop and print *)

(** X10.  A handler call hands at most one message to the client protocol,
    and only [/ping] and [/nextframe] ever do: a [/pong] and a [/trajectory]
    respectively.  The destination is always the host of the sender with the
    server's send port; the port the request came from is never used. *)
Theorem replies_go_to_the_sender_host (w : World) (cb : callback) (m : Message)
    (peer : Endpoint) (s : OscServer) :
  sends (effects (call w cb m peer s)) = []
  \/ exists reply,
       sends (effects (call w cb m peer s))
       = [(reply, mkEndpoint (host peer) (send_portnum s))]
       /\ ((cb = cb_ping /\ address reply = "/pong"%string)
           \/ (cb = cb_nextframe /\ address reply = "/trajectory"%string)).
Proof.
  destruct s as [vb rp sp re pc xf yf xp yp rc cp].
  destruct cb; simpl.
  - left. by destruct vb.
  - left. by destruct vb, re.
  - destruct cp as [c|]; [right | left; by destruct vb].
    eexists. split; [by destruct vb | by left].
  - left. destruct m as [addr [|x args]]; by destruct vb.
  - left. destruct m as [addr [|x args]]; by destruct vb.
  - destruct w as [[e|[[x y] z]] mem cb]; [left; by destruct vb|].
    destruct cp as [c|]; [right | left; by destruct vb].
    eexists. split; [by destruct vb | by right].
  - by left.
  - by left.
Qed.

(** X11.  The reactor is asked to stop by [/quit] alone, and by [/quit] only
    when a reactor has been stored; no other handler ever stops it. *)
Theorem only_quit_stops_the_reactor (w : World) (cb : callback) (m : Message)
    (peer : Endpoint) (s : OscServer) :
  existsb is_stop (effects (call w cb m peer s))
  = match cb, _reactor s with
    | cb_quit, Some _ => true
    | _, _ => false
    end.
Proof.
  destruct s as [vb rp sp re pc xf yf xp yp rc cp].
  destruct cb; simpl.
  - by destruct vb, re.
  - by destruct vb, re.
  - by destruct vb, cp, re.
  - destruct m as [addr [|x args]]; by destruct vb, re.
  - destruct m as [addr [|x args]]; by destruct vb, re.
  - destruct w as [[e|[[x y] z]] mem cb]; by destruct vb, cp, re.
  - by destruct re.
  - by destruct re.
Qed.

(** X12.  Verbosity changes the console output and nothing else: with the
    flag set either way, every handler returns or raises the same, leaves the
    same object (up to the flag) and sends and stops the same. *)
Theorem verbosity_changes_only_the_console (b : bool) (w : World) (cb : callback)
    (m : Message) (peer : Endpoint) (s : OscServer) :
  let o := call w cb m peer s in
  let o' := call w cb m peer (set_verbose b s) in
  result o' = result o
  /\ final o' = set_verbose b (final o)
  /\ outward (effects o') = outward (effects o).
Proof.
  destruct s as [vb rp sp re pc xf yf xp yp rc cp].
  destruct cb; simpl.
  - by destruct vb, b.
  - by destruct vb, b, re.
  - by destruct vb, b, cp.
  - destruct m as [addr [|x args]]; by destruct vb, b.
  - destruct m as [addr [|x args]]; by destruct vb, b.
  - destruct w as [[e|[[x y] z]] mem cb]; by destruct vb, b, cp.
  - done.
  - done.
Qed.

(** ** The object after a handler *)

(** X13.  The object a handler leaves depends on the method and the message
    alone, not on the sensor, the sender, the verbosity or on whether the
    handler returned or raised: [/reset] restores the four parameters,
    [/ping] increments the counter, [/xfreq] and [/yfreq] store the first
    argument if there is one, and [/quit], [/nextframe] and the fallback
    leave the object exactly as it was. *)
Theorem object_after_handler (w : World) (cb : callback) (m : Message) (peer : Endpoint)
    (s : OscServer) :
  final (call w cb m peer s) = next_state cb m s.
Proof.
  destruct s as [vb rp sp re pc xf yf xp yp rc cp].
  destruct cb; simpl.
  - by destruct vb.
  - by destruct vb, re.
  - by destruct vb, cp.
  - destruct m as [addr [|x args]]; by destruct vb.
  - destruct m as [addr [|x args]]; by destruct vb.
  - destruct w as [[e|[[x y] z]] mem cb]; by destruct vb, cp.
  - done.
  - done.
Qed.

(** X14.  Frequency messages compose as assignments do: [/xfreq] and
    [/yfreq] commute; of two [/xfreq] the later one wins; an [/xfreq] without
    argument keeps the value set before; and a [/reset] afterwards erases
    what was set. *)
Theorem frequency_messages_compose (ax ay a : string) (vx vx' vy : value)
    (rx rx' ry : list value) (p p' : Endpoint) (reset : Message) (s : OscServer) :
  let mx := mkMessage ax (vx :: rx) in
  let mx' := mkMessage a (vx' :: rx') in
  let my := mkMessage ay (vy :: ry) in
  final (msg_yfreq my p' (final (msg_xfreq mx p s)))
  = final (msg_xfreq mx p (final (msg_yfreq my p' s)))
  /\ final (msg_xfreq mx' p' (final (msg_xfreq mx p s))) = final (msg_xfreq mx' p' s)
  /\ final (msg_xfreq (mkMessage a []) p' (final (msg_xfreq mx p s)))
     = final (msg_xfreq mx p s)
  /\ final (msg_reset reset p' (final (msg_xfreq mx p s))) = final (msg_reset reset p' s).
Proof.
  destruct s as [vb rp sp re pc xf yf xp yp rc cp].
  repeat split; by destruct vb.
Qed.

(** ** The samples of [/nextframe] *)

(** X15.  The outcome of [/nextframe] depends on the channels accY and accZ,
    the host of the sender and the object only: the channel accX that is
    fetched with them, the content of the request, the port it came from and
    whatever the newly allocated buffer held make no difference. *)
Theorem nextframe_uses_accY_and_accZ_only (accX accX' accY accZ : spec_float)
    (mem mem' : nat -> nat -> spec_float) (b b' : Z -> bool) (m m' : Message)
    (h : string) (p p' : Z) (s : OscServer) :
  msg_nextframe (mkWorld (inr (accX, accY, accZ)) mem b) m (mkEndpoint h p) s
  = msg_nextframe (mkWorld (inr (accX', accY, accZ)) mem' b') m' (mkEndpoint h p') s.
Proof.
  destruct s as [vb rp sp re pc xf yf xp yp rc cp]. by destruct vb, cp.
Qed.

(** X16.  The reply of [/nextframe] announces 10 columns and 2 rows and
    carries exactly 20 samples, ten per row.  Every sample is a binary32
    number held in a Python float: it is the reading rounded to binary32, it
    differs from the reading exactly when the reading is not itself a
    binary32 number, and rounding it again changes nothing. *)
Theorem nextframe_samples_are_binary32 (w : World) (m : Message) (peer : Endpoint)
    (s : OscServer) (accX accY accZ : spec_float) (cp : client_protocol) :
  sensor w = inr (accX, accY, accZ) ->
  _client_protocol s = Some cp ->
  exists fy fz,
    sends (effects (msg_nextframe w m peer s))
    = [(mkMessage "/trajectory"
          (VInt 10 :: VInt 2 :: replicate 10 (VFloat fy) ++ replicate 10 (VFloat fz)),
        mkEndpoint (host peer) (send_portnum s))]
    /\ is_float32 fy = true /\ is_float32 fz = true
    /\ spec_float_eqb fy accY = is_float32 accY
    /\ spec_float_eqb fz accZ = is_float32 accZ
    /\ np_float32 fy = np_float32 accY /\ np_float32 fz = np_float32 accZ.
Proof.
  intros Hs Hcp.
  exists (py_float (np_float32 accY)), (py_float (np_float32 accZ)).
  rewrite (msg_nextframe_outcome w m peer s _ _ _ _ Hs Hcp). cbn [effects].
  rewrite sends_app, sends_print_line. cbn [app sends omap].
  split; [reflexivity|].
  split; [apply sample_is_float32|]. split; [apply sample_is_float32|].
  split; [reflexivity|]. split; [reflexivity|].
  split; apply np_float32_py_float, np_float32_valid.
Qed.

Lemma nextframe_samples_are_binary32_witness :
  let tenth := S754_finite false 7205759403792794 (-56) in
  let w := mkWorld (inr (float_of_Z 1, tenth, float_of_Z 3)) (fun _ _ => S754_nan)
             (fun _ => true) in
  (sensor w = inr (float_of_Z 1, tenth, float_of_Z 3)
   /\ _client_protocol (started false) = Some DatagramClientProtocol)
  /\ is_float32 tenth = false
  /\ exists fy fz,
       sends (effects (msg_nextframe w (mkMessage "/nextframe" [])
                         (mkEndpoint "10.0.0.1" 5000) (started false)))
       = [(mkMessage "/trajectory"
             (VInt 10 :: VInt 2 :: replicate 10 (VFloat fy) ++ replicate 10 (VFloat fz)),
           mkEndpoint "10.0.0.1" 12000)]
       /\ spec_float_eqb fy tenth = false
       /\ is_float32 fy = true.
Proof.
  intros tenth w. split; [by split|]. split; [vm_compute; reflexivity|].
  destruct (nextframe_samples_are_binary32 w (mkMessage "/nextframe" [])
              (mkEndpoint "10.0.0.1" 5000) (started false) _ _ _ _ eq_refl eq_refl)
    as (fy & fz & Hsends & Hfy & _ & Heq & _).
  exists fy, fz. split; [exact Hsends|]. split; [|exact Hfy].
  rewrite Heq. vm_compute. reflexivity.
Defined.

(** ** Readings beyond the binary32 range *)

Section Overflow.
Variables prec emax : Z.
Hypothesis Hprec : 0 < prec.
Hypothesis Hemax : 2 <= emax.

Local Abbreviation fexp := (SpecFloat.fexp prec emax).
Local Abbreviation emin := (SpecFloat.emin prec emax).

Lemma shr_fexp_exponent (m : positive) (e : Z) (l : location) :
  e <= fexp (Z.pos (digits2_pos m) + e) ->
  (shr_fexp prec emax (Z.pos m) e l).2 = fexp (Z.pos (digits2_pos m) + e).
Proof.
  intros He. unfold shr_fexp, shr. simpl Zdigits2.
  destruct (fexp (Z.pos (digits2_pos m) + e) - e) as [|n|n] eqn:Hn; simpl; lia.
Qed.

(** From a mantissa whose place is above the largest exponent of the format,
    rounding gives an infinity. *)
Lemma binary_round_aux_overflow (s : bool) (m : positive) (e : Z) (l : location) :
  e <= fexp (Z.pos (digits2_pos m) + e) ->
  emax - prec < fexp (Z.pos (digits2_pos m) + e) ->
  binary_round_aux prec emax s (Z.pos m) e l = S754_infinity s.
Proof.
  intros He Hbig. unfold binary_round_aux.
  pose proof (shr_fexp_in_place prec emax Hprec m e l He) as Hp.
  pose proof (shr_fexp_exponent m e l He) as He1.
  destruct (shr_fexp prec emax (Z.pos m) e l) as [mrs1 e1]. cbn [fst snd] in Hp, He1.
  assert (emax - prec < e1) as Hbig1 by lia. clear He1.
  assert (2 ^ (prec - 1) <= shr_m mrs1 < 2 ^ prec) as Hm1.
  { destruct Hp as [[Hm _]|[_ Hat]]; [done|]. unfold SpecFloat.emin in Hat. lia. }
  assert (0 < 2 ^ (prec - 1)) as Hpow by (apply Z.pow_pos_nonneg; lia).
  set (m2 := round_nearest_even (shr_m mrs1) (loc_of_shr_record mrs1)).
  assert (2 ^ (prec - 1) <= m2 <= 2 ^ prec) as Hm2.
  { destruct (round_nearest_even_step (shr_m mrs1) (loc_of_shr_record mrs1)) as [Hr|Hr];
      fold m2 in Hr; lia. }
  clearbody m2. unfold shr_fexp.
  destruct (Z.eq_dec m2 (2 ^ prec)) as [->|Hne].
  - assert (Zdigits2 (2 ^ prec) = prec + 1) as Hdig.
    { apply Zdigits2_unique; [|lia].
      replace (prec + 1 - 1) with prec by lia. split; [lia|].
      apply Z.pow_lt_mono_r; lia. }
    rewrite Hdig.
    assert (fexp (prec + 1 + e1) - e1 = 1) as ->
      by (unfold SpecFloat.fexp, SpecFloat.emin; lia).
    unfold shr.
    change (SpecFloat.iter_pos shr_1 1 (shr_record_of_loc (2 ^ prec) loc_Exact))
      with (shr_1 (Build_shr_record (2 ^ prec) false false)).
    rewrite shr_1_half by (simpl; lia). cbn [shr_m].
    assert (2 ^ prec / 2 = 2 ^ (prec - 1)) as ->.
    { replace prec with (Z.succ (prec - 1)) at 1 by lia.
      rewrite Z.pow_succ_r by lia. rewrite Z.mul_comm. apply Z.div_mul. lia. }
    destruct (2 ^ (prec - 1)) as [|p|p]; [lia| |lia].
    destruct (Z.leb_spec (e1 + 1) (emax - prec)); [lia | done].
  - assert (Zdigits2 m2 = prec) as Hdig by (apply Zdigits2_unique; lia).
    rewrite Hdig.
    assert (fexp (prec + e1) - e1 = 0) as ->
      by (unfold SpecFloat.fexp, SpecFloat.emin; lia).
    unfold shr. cbn [shr_record_of_loc shr_m].
    destruct m2 as [|p|p]; [lia| |lia].
    destruct (Z.leb_spec e1 (emax - prec)); [lia | done].
Qed.

Lemma binary_round_overflow (s : bool) (m : positive) (e : Z) :
  emax < Z.pos (digits2_pos m) + e ->
  binary_round prec emax s m e = S754_infinity s.
Proof.
  intros Hbig. unfold binary_round, shl_align.
  assert (fexp (Z.pos (digits2_pos m) + e) = Z.pos (digits2_pos m) + e - prec) as Hf
    by (unfold SpecFloat.fexp, SpecFloat.emin; lia).
  destruct (fexp (Z.pos (digits2_pos m) + e) - e) as [|n|n] eqn:Hn.
  - apply binary_round_aux_overflow; lia.
  - apply binary_round_aux_overflow; lia.
  - rewrite Hf. apply binary_round_aux_overflow; rewrite digits2_pos_shifted;
      replace (Z.pos (digits2_pos m + n) + (Z.pos (digits2_pos m) + e - prec))
        with (Z.pos (digits2_pos m) + e) by lia; lia.
Qed.
End Overflow.

(** X18.  A reading of accY whose magnitude is 2^128 or more does not fit a
    binary32 number: the buffer holds an infinity of the reading's sign in
    its place, and that is what row 0 of the reply carries, ten times; the
    handler neither raises nor clips to the largest finite value. *)
Theorem nextframe_reading_out_of_range (w : World) (m : Message) (peer : Endpoint)
    (s : OscServer) (accX accZ : spec_float) (sy : bool) (my : positive) (ey : Z)
    (cp : client_protocol) :
  sensor w = inr (accX, S754_finite sy my ey, accZ) ->
  _client_protocol s = Some cp ->
  0 <= ey ->
  2 ^ 128 <= Z.pos my * 2 ^ ey ->
  result (msg_nextframe w m peer s) = inr tt
  /\ sends (effects (msg_nextframe w m peer s))
     = [(mkMessage "/trajectory"
           (VInt 10 :: VInt 2
            :: replicate 10 (VFloat (S754_infinity sy))
            ++ replicate 10 (VFloat (py_float (np_float32 accZ)))),
         mkEndpoint (host peer) (send_portnum s))].
Proof.
  intros Hs Hcp Hey Hbig.
  rewrite (msg_nextframe_outcome w m peer s _ _ _ _ Hs Hcp). cbn [result effects].
  split; [done|]. rewrite sends_app, sends_print_line. cbn [app sends omap].
  assert (np_float32 (S754_finite sy my ey) = S754_infinity sy) as ->; [|done].
  unfold np_float32. apply binary_round_overflow; [lia..|].
  pose proof (digits2_pos_bounds my) as Hd.
  destruct (Z.lt_ge_cases 128 (Z.pos (digits2_pos my) + ey)) as [|Hle]; [done|].
  assert (Z.pos my * 2 ^ ey < 2 ^ 128); [|lia].
  apply Z.lt_le_trans with (2 ^ Z.pos (digits2_pos my) * 2 ^ ey).
  - apply Z.mul_lt_mono_pos_r; [apply Z.pow_pos_nonneg; lia | lia].
  - rewrite <- Z.pow_add_r by lia. apply Z.pow_le_mono_r; lia.
Qed.

Lemma nextframe_reading_out_of_range_witness :
  let huge := S754_finite true 4503599627370496 76 in
  let w := mkWorld (inr (float_of_Z 1, huge, float_of_Z 3)) (fun _ _ => S754_nan)
             (fun _ => true) in
  (sensor w = inr (float_of_Z 1, huge, float_of_Z 3)
   /\ _client_protocol (started false) = Some DatagramClientProtocol
   /\ 0 <= 76
   /\ 2 ^ 128 <= Z.pos 4503599627370496 * 2 ^ 76)
  /\ sends (effects (msg_nextframe w (mkMessage "/nextframe" [])
                       (mkEndpoint "10.0.0.1" 5000) (started false)))
     = [(mkMessage "/trajectory"
           (VInt 10 :: VInt 2
            :: replicate 10 (VFloat (S754_infinity true))
            ++ replicate 10 (VFloat (float_of_Z 3))),
         mkEndpoint "10.0.0.1" 12000)].
Proof.
  intros huge w.
  assert (2 ^ 128 <= Z.pos 4503599627370496 * 2 ^ 76) as Hbig by (vm_compute; discriminate).
  split; [repeat split; [lia | exact Hbig]|].
  destruct (nextframe_reading_out_of_range w (mkMessage "/nextframe" [])
              (mkEndpoint "10.0.0.1" 5000) (started false) _ _ true _ 76 _
              eq_refl eq_refl ltac:(lia) Hbig) as [_ H].
  rewrite H. vm_compute. reflexivity.
Defined.
